(** * snorkel: candidates and the spaCy parser adapter

    A shallow embedding of [snorkel/models/candidate.py] and
    [snorkel/parser/spacy_parser.py], and the properties of the two that the
    specification states.

    Python values that the code manipulates are modelled as follows:
    - [int] is [Z] (unbounded), [str]/[unicode] is [string];
    - a [list] or a [tuple] is a Rocq [list];
    - a [dict] keyed by computed strings is a [gmap string _];
    - a raised exception is the [Raise] branch of [Py.result];
    - an object that is compared by identity is a reference into a store. *)

From stdpp Require Import gmap strings list fin_maps.
From Stdlib Require Import ZArith Ascii.

Open Scope Z_scope.

(** ** Python preliminaries *)

Module Py.

(** The exception classes that occur in the two files.  All of them derive
    from Python's [Exception]. *)
Inductive exn : Type :=
  | AttributeError (name : string)
  | IndexError (msg : string)
  | TypeError (msg : string)
  | AssertionError
  | OperationalError (msg : string)
  | Exception (msg : string).

#[global] Instance exn_eq_dec : EqDecision exn.
Proof. solve_decision. Defined.

Inductive result (A : Type) : Type :=
  | Ok (a : A)
  | Raise (e : exn).
Arguments Ok {A} a.
Arguments Raise {A} e.

#[global] Instance result_eq_dec `{EqDecision A} : EqDecision (result A).
Proof. solve_decision. Defined.

#[global] Instance result_ret : MRet result := @Ok.
#[global] Instance result_bind : MBind result := λ A B f m,
  match m with
  | Ok a => f a
  | Raise e => Raise e
  end.
#[global] Instance result_fmap : FMap result := λ A B f m,
  match m with
  | Ok a => Ok (f a)
  | Raise e => Raise e
  end.

Definition is_Ok {A} (m : result A) : bool :=
  match m with Ok _ => true | Raise _ => false end.

(** [for x in xs: ys.append(f(x))], stopping at the first exception. *)
Fixpoint for_each {A B} (f : A → result B) (xs : list A) : result (list B) :=
  match xs with
  | [] => Ok []
  | x :: xs' => y ← f x; ys ← for_each f xs'; mret (y :: ys)
  end.

(** [seq[key]] for an [int] key: negative keys count from the end, a key
    out of range raises [IndexError]. *)
Definition getitem {A} (seq : list A) (key : Z) : result A :=
  let n := Z.of_nat (length seq) in
  let k := if key <? 0 then key + n else key in
  if (k <? 0) || (n <=? k) then Raise (IndexError "index out of range")
  else match seq !! Z.to_nat k with
       | Some x => Ok x
       | None => Raise (IndexError "index out of range")
       end.

(** [seq.count(x)] *)
Definition count `{EqDecision A} (x : A) (seq : list A) : nat :=
  length (filter (λ y, y = x) seq).

End Py.

Import Py.

(** ** snorkel/models/candidate.py *)

(** *** Contexts

    [Context] is defined elsewhere in the package; a candidate uses two of
    its capabilities: the attribute [stable_id] and the method
    [get_parent()].  Parents are compared with [==] by [list.count]. *)
Class ContextLike (Ctx : Type) := {
  Parent : Type;
  Parent_eq_dec :: EqDecision Parent;
  stable_id : Ctx → string;
  ctx_get_parent : Ctx → Parent;
}.

(** *** The declarations handed to SQLAlchemy *)

Module sqlalchemy.
Inductive sqltype := Integer | String | Float.
End sqlalchemy.
Abbreviation sqltype := sqlalchemy.sqltype.

Record ForeignKey := {
  fk_target : string;
  fk_ondelete : string;
}.

(** [Column(type, ForeignKey(..), primary_key=..)].  SQLAlchemy's declarative
    layer names a column after the attribute key it is stored under;
    [col_key] records that key. *)
Record Column := {
  col_key : string;
  col_type : sqltype;
  col_foreign_key : option ForeignKey;
  col_primary_key : bool;
}.

Record Backref := {
  backref_name : string;
  backref_cascade_backrefs : bool;
  backref_cascade : string;
}.

Record Relationship := {
  rel_argument : string;
  rel_backref : Backref;
  rel_cascade_backrefs : bool;
  rel_foreign_keys : Column;
}.

Inductive attrib :=
  | AColumn (c : Column)
  | ARelationship (r : Relationship).

(** [UniqueConstraint] over the columns it is given, in order. *)
Record UniqueConstraint := { uc_columns : list Column }.

#[global] Instance sqltype_eq_dec : EqDecision sqltype.
Proof. solve_decision. Defined.
#[global] Instance ForeignKey_eq_dec : EqDecision ForeignKey.
Proof. solve_decision. Defined.
#[global] Instance Column_eq_dec : EqDecision Column.
Proof. solve_decision. Defined.
#[global] Instance Backref_eq_dec : EqDecision Backref.
Proof. solve_decision. Defined.
#[global] Instance Relationship_eq_dec : EqDecision Relationship.
Proof. solve_decision. Defined.
#[global] Instance attrib_eq_dec : EqDecision attrib.
Proof. solve_decision. Defined.
#[global] Instance UniqueConstraint_eq_dec : EqDecision UniqueConstraint.
Proof. solve_decision. Defined.

(** The class built by [type(class_name, (Candidate,), class_attribs)].
    The keys that the dictionary literal fixes with double underscores are
    fields; ['id'] and the keys computed from the role names are kept in the
    dictionary [cls_attribs], where a later assignment to a key replaces an
    earlier one. *)
Record CandidateClass := {
  cls_name : string;
  cls_tablename : string;
  cls_polymorphic_identity : string;
  cls_argnames : list string;
  cls_attribs : gmap string attrib;
  cls_table_args : list UniqueConstraint;
}.

#[global] Instance CandidateClass_eq_dec : EqDecision CandidateClass.
Proof. solve_decision. Defined.

(** *** The storage engine

    The engine is seen through [dialect.has_table] and [Table.create].  The
    tables are kept in creation order; creating a table whose name is taken
    is an error of the database. *)
Record Table := {
  tbl_name : string;
  tbl_columns : list Column;
  tbl_constraints : list UniqueConstraint;
}.

#[global] Instance Table_eq_dec : EqDecision Table.
Proof. solve_decision. Defined.

Definition Engine := list Table.

Definition has_table (engine : Engine) (table_name : string) : bool :=
  bool_decide (table_name ∈ tbl_name <$> engine).

Definition table_create (t : Table) (engine : Engine) : result Engine :=
  if has_table engine (tbl_name t)
  then Raise (OperationalError "table already exists")
  else Ok (engine ++ [t]).

(** The columns of the mapped class, as the declarative layer collects
    them from the class dictionary. *)
Definition columns_of (attribs : gmap string attrib) : list Column :=
  omap (λ kv, match kv.2 with AColumn c => Some c | ARelationship _ => None end)
       (map_to_list attribs).

(** [C.__table__] *)
Definition __table__ (C : CandidateClass) : Table :=
  {| tbl_name := cls_tablename C;
     tbl_columns := columns_of (cls_attribs C);
     tbl_constraints := cls_table_args C |}.

(** *** [candidate_subclass]

    [camel_to_under] is imported from [snorkel.utils]; the factory is
    parametric in it. *)
Section factory.

Variable camel_to_under : string → string.

Definition candidate_id_column : Column :=
  {| col_key := "id"; col_type := sqlalchemy.Integer;
     col_foreign_key :=
       Some {| fk_target := "candidate.id"; fk_ondelete := "CASCADE" |};
     col_primary_key := true |}.

Definition context_id_column (arg : string) : Column :=
  {| col_key := arg +:+ "_id"; col_type := sqlalchemy.Integer;
     col_foreign_key :=
       Some {| fk_target := "context.id"; fk_ondelete := "CASCADE" |};
     col_primary_key := false |}.

Definition cid_column (arg : string) : Column :=
  {| col_key := arg +:+ "_cid"; col_type := sqlalchemy.String;
     col_foreign_key := None; col_primary_key := false |}.

Definition context_relationship (table_name arg : string) (fk : Column)
  : Relationship :=
  {| rel_argument := "Context";
     rel_backref :=
       {| backref_name := table_name +:+ "_" +:+ arg +:+ "s";
          backref_cascade_backrefs := false;
          backref_cascade := "all, delete-orphan" |};
     rel_cascade_backrefs := false;
     rel_foreign_keys := fk |}.

(** The body of [for arg in args], on the pair
    [(class_attribs, unique_con_args)]. *)
Definition add_arg (table_name : string)
    (st : gmap string attrib * list Column) (arg : string)
  : gmap string attrib * list Column :=
  let '(class_attribs, unique_con_args) := st in
  let col := context_id_column arg in
  let class_attribs := <[arg +:+ "_id" := AColumn col]> class_attribs in
  let class_attribs :=
    <[arg := ARelationship (context_relationship table_name arg col)]>
      class_attribs in
  let unique_con_args := unique_con_args ++ [col] in
  let class_attribs :=
    <[arg +:+ "_cid" := AColumn (cid_column arg)]> class_attribs in
  (class_attribs, unique_con_args).

Definition initial_attribs : gmap string attrib :=
  {[ "id" := AColumn candidate_id_column ]}.

(** The class that [type(class_name, (Candidate,), class_attribs)]
    returns. *)
Definition build_class (class_name : string) (args : list string)
    (table_name : string) : CandidateClass :=
  let '(class_attribs, unique_con_args) :=
    foldl (add_arg table_name) (initial_attribs, []) args in
  {| cls_name := class_name;
     cls_tablename := table_name;
     cls_polymorphic_identity := table_name;
     cls_argnames := args;
     cls_attribs := class_attribs;
     cls_table_args := [ {| uc_columns := unique_con_args |} ] |}.

Definition candidate_subclass (class_name : string) (args : list string)
    (table_name : option string) (snorkel_engine : Engine)
  : result (CandidateClass * Engine) :=
  let table_name :=
    match table_name with
    | None => camel_to_under class_name
    | Some t => t
    end in
  let C := build_class class_name args table_name in
  if negb (has_table snorkel_engine table_name)
  then snorkel_engine ← table_create (__table__ C) snorkel_engine;
       mret (C, snorkel_engine)
  else mret (C, snorkel_engine).

End factory.

(** *** The [Candidate] base class *)

(** What an attribute of a candidate can hold. *)
Inductive value (Ctx : Type) : Type :=
  | VNone
  | VContext (c : Ctx)
  | VInt (n : Z)
  | VStr (s : string).
Arguments VNone {Ctx}.
Arguments VContext {Ctx} c.
Arguments VInt {Ctx} n.
Arguments VStr {Ctx} s.

(** An instance: its class and the attributes set on it. *)
Record CandidateObj (Ctx : Type) := {
  obj_class : CandidateClass;
  obj_dict : gmap string (value Ctx);
}.
Arguments obj_class {Ctx} _.
Arguments obj_dict {Ctx} _.

(** The columns declared by [Candidate] itself. *)
Definition base_columns : list string :=
  ["id"; "type"; "split"; "training_marginal"].

Section candidate.

Context `{ContextLike Ctx}.

(** The builtin [hash] on a tuple of strings. *)
Variable py_hash : list string → Z.

(** [getattr(self, name)]: an attribute that the class maps and that was
    never set reads as [None]; a name the class does not have raises. *)
Definition getattr (self : CandidateObj Ctx) (name : string)
  : result (value Ctx) :=
  match obj_dict self !! name with
  | Some v => Ok v
  | None =>
      if bool_decide (name ∈ dom (cls_attribs (obj_class self)))
         || bool_decide (name ∈ base_columns)
      then Ok VNone
      else Raise (AttributeError name)
  end.

Definition get_contexts (self : CandidateObj Ctx) : result (list (value Ctx)) :=
  for_each (getattr self) (cls_argnames (obj_class self)).

(** [c.get_parent()] on what [get_contexts] returned. *)
Definition call_get_parent (c : value Ctx) : result Parent :=
  match c with
  | VContext c => Ok (ctx_get_parent c)
  | _ => Raise (AttributeError "get_parent")
  end.

Definition get_parent (self : CandidateObj Ctx) : result Parent :=
  contexts ← get_contexts self;
  p ← for_each call_get_parent contexts;
  p0 ← getitem p 0;
  if bool_decide (count p0 p = length p)
  then Ok p0
  else Raise (Exception "Contexts do not all have same parent").

Definition get_cids (self : CandidateObj Ctx) : result (list (value Ctx)) :=
  for_each (λ name, getattr self (name +:+ "_cid"))
           (cls_argnames (obj_class self)).

Definition __len__ (self : CandidateObj Ctx) : Z :=
  Z.of_nat (length (cls_argnames (obj_class self))).

Definition __getitem__ (self : CandidateObj Ctx) (key : Z)
  : result (value Ctx) :=
  contexts ← get_contexts self;
  getitem contexts key.

(** [c.stable_id] on what [get_contexts] returned. *)
Definition attr_stable_id (c : value Ctx) : result string :=
  match c with
  | VContext c => Ok (stable_id c)
  | _ => Raise (AttributeError "stable_id")
  end.

(** [tuple(c.stable_id for c in self.get_contexts())] *)
Definition stable_id_tuple (self : CandidateObj Ctx) : result (list string) :=
  contexts ← get_contexts self;
  for_each attr_stable_id contexts.

Definition __hash__ (self : CandidateObj Ctx) : result Z :=
  ids ← stable_id_tuple self;
  mret (py_hash ids).

(** Candidates live in a store and are handled through references.
    [Candidate] defines [__hash__] and neither [__eq__] nor [__cmp__]:
    [a == b] on two candidates is Python's default, which compares the
    identities of the two objects. *)
Definition ref := nat.

Definition candidate_eq (a b : ref) : bool := bool_decide (a = b).

End candidate.

(** ** snorkel/parser/spacy_parser.py *)

Module SpacyParser.

(** *** What spaCy hands over

    A parsed [Doc] is an array of token entries.  A [Token] is a view of
    one entry together with its index [i] in the document; two views of
    the same entry are the same object.  A [Span] (a sentence) is the
    slice [start, end) of its document. *)
Record TokenC := {
  orth : string;       (* str(token) *)
  lemma_ : string;
  tag_ : string;
  ent_type_ : string;
  idx : Z;             (* character offset of the token in the document *)
  head : nat;          (* index in the document of token.head *)
  dep_ : string;
}.

Record Token := {
  i : nat;
  c : TokenC;
}.

Record Span := {
  doc : list TokenC;
  start : nat;
  end_ : nat;
  start_char : Z;
  end_char : Z;
  text : string;
}.

(** [iter(sent)]: the tokens [doc[start]], ..., [doc[end - 1]]. *)
Definition tokens (sent : Span) : list Token :=
  imap (λ k t, {| i := (start sent + k)%nat; c := t |})
       (take (end_ sent - start sent) (drop (start sent) (doc sent))).

(** [token.head is token] *)
Definition head_is (token : Token) : bool :=
  bool_decide (head (c token) = i token).

(** The owning document, as far as the parser reads it. *)
Record Document := {
  doc_stable_id : string;
  hit_starts : list Z;   (* document.meta['hit_starts'] *)
  bmb_id : string;       (* str(document.meta['bmb_id']) *)
}.

(** The [parts] dictionary of [parse_sent]. *)
Record Parts := {
  words : list string;
  lemmas : list string;
  pos_tags : list string;
  ner_tags : list string;
  char_offsets : list Z;
  abs_char_offsets : list Z;
  dep_parents : list Z;
  dep_labels : list string;
  position : Z;
  document : option Document;
  sent_text : string;
  entity_cids : list string;
  entity_types : list string;
  stable_id : option string;
}.

(** [defaultdict(list)]: every key reads as the empty list. *)
Definition empty_parts : Parts :=
  {| words := []; lemmas := []; pos_tags := []; ner_tags := [];
     char_offsets := []; abs_char_offsets := []; dep_parents := [];
     dep_labels := []; position := 0; document := None; sent_text := "";
     entity_cids := []; entity_types := []; stable_id := None |}.

(** The two parser classes of the file. *)
Inductive parser_class := Spacy | SpacyPretagged.

(** One entry written by [logger.warn] in [parse]: the position and the
    exception that the message is formatted from. *)
Record warning := {
  warn_position : Z;
  warn_exn : exn;
}.

Section parser.

(** [construct_stable_id] is imported from [snorkel.models]. *)
Variable construct_stable_id : Document → string → Z → Z → result string.

(** [0 if token.head is token else token.head.i - sent[0].i + 1] *)
Definition head_idx (sent : Span) (token : Token) : result Z :=
  if head_is token then Ok 0
  else sent0 ← getitem (tokens sent) 0;
       mret (Z.of_nat (head (c token)) - Z.of_nat (i sent0) + 1).

(** The body of [for i, token in enumerate(sent)]. *)
Definition append_token (sent : Span) (parts : Parts) (token : Token)
  : result Parts :=
  head_idx ← head_idx sent token;
  mret {| words := words parts ++ [orth (c token)];
          lemmas := lemmas parts ++ [lemma_ (c token)];
          pos_tags := pos_tags parts ++ [tag_ (c token)];
          ner_tags := ner_tags parts ++
            [if bool_decide (ent_type_ (c token) = "") then "O"
             else ent_type_ (c token)];
          char_offsets := char_offsets parts ++ [idx (c token)];
          abs_char_offsets := abs_char_offsets parts ++ [idx (c token)];
          dep_parents := dep_parents parts ++ [head_idx];
          dep_labels := dep_labels parts ++ [dep_ (c token)];
          position := position parts;
          document := document parts;
          sent_text := sent_text parts;
          entity_cids := entity_cids parts;
          entity_types := entity_types parts;
          stable_id := stable_id parts |}.

Fixpoint for_tokens (sent : Span) (parts : Parts) (toks : list Token)
  : result Parts :=
  match toks with
  | [] => Ok parts
  | token :: toks' =>
      parts ← append_token sent parts token;
      for_tokens sent parts toks'
  end.

(** [[p - parts['char_offsets'][0] for p in parts['char_offsets']]] *)
Definition relative_offsets (offsets : list Z) : result (list Z) :=
  for_each (λ p, first ← getitem offsets 0; mret (p - first)) offsets.

Definition set_sentence_fields (parts : Parts) (offsets : list Z)
    (position' : Z) (document' : option Document) (text' : string)
  : Parts :=
  {| words := words parts; lemmas := lemmas parts;
     pos_tags := pos_tags parts; ner_tags := ner_tags parts;
     char_offsets := offsets;
     abs_char_offsets := abs_char_offsets parts;
     dep_parents := dep_parents parts; dep_labels := dep_labels parts;
     position := position'; document := document'; sent_text := text';
     entity_cids := entity_cids parts;
     entity_types := entity_types parts;
     stable_id := stable_id parts |}.

Definition set_entities (parts : Parts) (cids types : list string)
  : Parts :=
  {| words := words parts; lemmas := lemmas parts;
     pos_tags := pos_tags parts; ner_tags := ner_tags parts;
     char_offsets := char_offsets parts;
     abs_char_offsets := abs_char_offsets parts;
     dep_parents := dep_parents parts; dep_labels := dep_labels parts;
     position := position parts; document := document parts;
     sent_text := sent_text parts;
     entity_cids := cids; entity_types := types;
     stable_id := stable_id parts |}.

Definition set_stable_id (parts : Parts) (sid : string) : Parts :=
  {| words := words parts; lemmas := lemmas parts;
     pos_tags := pos_tags parts; ner_tags := ner_tags parts;
     char_offsets := char_offsets parts;
     abs_char_offsets := abs_char_offsets parts;
     dep_parents := dep_parents parts; dep_labels := dep_labels parts;
     position := position parts; document := document parts;
     sent_text := sent_text parts;
     entity_cids := entity_cids parts;
     entity_types := entity_types parts;
     stable_id := Some sid |}.

(** [Spacy.update_entity_attributes] *)
Definition Spacy_update_entity_attributes (parts : Parts) : Parts :=
  set_entities parts ((λ _, "O") <$> words parts)
                     ((λ _, "O") <$> words parts).

(** [[i for i, x in enumerate(parts['abs_char_offsets'])
       if hit <= x <= document.meta['hit_starts']]]

    The right-hand comparison is between an [int] and a [list]; the
    module is Python 2 code ([unicode] in [parse]), where a number
    orders before a list, so that comparison holds for every [x]. *)
Definition hit_indices (hit : Z) (offsets : list Z) : list nat :=
  omap (λ kx : nat * Z, if bool_decide (hit ≤ kx.2) then Some kx.1 else None)
       (imap pair offsets).

(** The body of [for hit in hits], with its [try]/[except IndexError]. *)
Definition overlay_hit (d : Document) (parts : Parts) (hit : Z)
  : result Parts :=
  match hit_indices hit (abs_char_offsets parts) with
  | [] =>
      Raise (IndexError
               "SpacyPretagged: hit location does not align in tokens")
  | index :: _ =>
      let parts :=
        set_entities parts
          (<[index := bmb_id d]> (entity_cids parts))
          (<[index := "hit"]> (entity_types parts)) in
      if bool_decide (words parts !! index = Some "BmBTarget")
      then Ok parts
      else Raise AssertionError
  end.

Fixpoint for_hits (d : Document) (parts : Parts) (hits : list Z)
  : result Parts :=
  match hits with
  | [] => Ok parts
  | hit :: hits' =>
      parts ← overlay_hit d parts hit;
      for_hits d parts hits'
  end.

(** [SpacyPretagged.update_entity_attributes] *)
Definition SpacyPretagged_update_entity_attributes (parts : Parts)
    (sent : Span) (document' : option Document) : result Parts :=
  let parts := Spacy_update_entity_attributes parts in
  d ← match document' with
      | Some d => Ok d
      | None => Raise (AttributeError "meta")
      end;
  let hits :=
    filter (λ x, start_char sent ≤ x ∧ x ≤ end_char sent) (hit_starts d) in
  for_hits d parts hits.

(** [self.update_entity_attributes(...)], by the class of [self]. *)
Definition update_entity_attributes (self : parser_class) (parts : Parts)
    (sent : Span) (document' : option Document) : result Parts :=
  match self with
  | Spacy => Ok (Spacy_update_entity_attributes parts)
  | SpacyPretagged =>
      SpacyPretagged_update_entity_attributes parts sent document'
  end.

Definition parse_sent (self : parser_class) (sent : Span)
    (document' : option Document) (position' : Z) : result Parts :=
  let parts := empty_parts in
  let text' := text sent in
  parts ← for_tokens sent parts (tokens sent);
  offsets ← relative_offsets (char_offsets parts);
  let parts := set_sentence_fields parts offsets position' document' text' in
  parts ← update_entity_attributes self parts sent document';
  abs_sent_offset ← getitem (abs_char_offsets parts) 0;
  last_offset ← getitem (char_offsets parts) (-1);
  last_word ← getitem (words parts) (-1);
  let abs_sent_offset_end :=
    abs_sent_offset + last_offset + Z.of_nat (String.length last_word) in
  match document' with
  | Some d =>
      sid ← construct_stable_id d "sentence" abs_sent_offset
                                abs_sent_offset_end;
      mret (set_stable_id parts sid)
  | None => mret parts
  end.

(** The state of the generator [parse] between two sentences: the
    counter [position], the records yielded so far and the warnings
    logged so far. *)
Record parse_state := {
  st_position : Z;
  st_yielded : list Parts;
  st_log : list warning;
}.

(** The body of [for sent in doc.sents], with its [try]/[except]. *)
Definition parse_step (self : parser_class) (document' : option Document)
    (st : parse_state) (sent : Span) : parse_state :=
  match parse_sent self sent document' (st_position st) with
  | Ok parts =>
      {| st_position := st_position st + 1;
         st_yielded := st_yielded st ++ [parts];
         st_log := st_log st |}
  | Raise e =>
      {| st_position := st_position st;
         st_yielded := st_yielded st;
         st_log := st_log st ++
           [{| warn_position := st_position st; warn_exn := e |}] |}
  end.

Definition parse_from (self : parser_class) (document' : option Document)
    (st : parse_state) (sents : list Span) : parse_state :=
  foldl (parse_step self document') st sents.

(** [position = 0], nothing yielded and nothing logged yet. *)
Definition parse_start : parse_state :=
  {| st_position := 0; st_yielded := []; st_log := [] |}.

(** [parse], from the sentences [doc.sents] of the processed text: the
    records the generator yields and the warnings it logs. *)
Definition parse (self : parser_class) (document' : option Document)
    (sents : list Span) : list Parts * list warning :=
  let st := parse_from self document' parse_start sents in
  (st_yielded st, st_log st).

End parser.

End SpacyParser.

(** ** Definitions used to state and to exercise the properties *)

(** Modelled from the spec: [camel_to_under] of [snorkel.utils], which the
    factory imports and which is not among the sources.  The specification
    gives it as the case-convention transform that derives
    "new_candidate_class" from "NewCandidateClass": a capital letter is put
    in lower case and, unless it starts the name, is preceded by an
    underscore. *)
Definition is_upper (a : ascii) : bool :=
  let n := nat_of_ascii a in (65 <=? n)%nat && (n <=? 90)%nat.

Definition to_lower (a : ascii) : ascii :=
  if is_upper a then ascii_of_nat (nat_of_ascii a + 32) else a.

Fixpoint camel_words (at_start : bool) (name : string) : string :=
  match name with
  | EmptyString => EmptyString
  | String a rest =>
      if is_upper a && negb at_start
      then String "_" (String (to_lower a) (camel_words false rest))
      else String (to_lower a) (camel_words false rest)
  end.

Definition camel_to_under (name : string) : string := camel_words true name.

(** A concrete kind of context: a span with its stable identifier and the
    identifier of the sentence that owns it. *)
Record SpanContext := {
  span_stable_id : string;
  span_sentence : nat;
}.

#[global] Instance SpanContext_ContextLike : ContextLike SpanContext :=
  {| Parent := nat;
     stable_id := span_stable_id;
     ctx_get_parent := span_sentence |}.

(** A stand-in for the builtin [hash] on tuples of strings. *)
Definition sum_hash (ids : list string) : Z :=
  foldr (λ s acc, Z.of_nat (String.length s) + 31 * acc) 7 ids.

(** The role name of every column of a uniqueness constraint. *)
Definition constraint_keys (uc : UniqueConstraint) : list string :=
  col_key <$> uc_columns uc.

(** The attribute [role] of [self] is set to the context [ctx]. *)
Definition bound {Ctx} (self : CandidateObj Ctx) (role : string) (ctx : Ctx)
  : Prop :=
  obj_dict self !! role = Some (VContext ctx).


(** A variant of two roles over an empty database, and three of its
    instances. *)
Definition Spouse : CandidateClass :=
  build_class "Spouse" ["person1"; "person2"] "spouse".

Definition spouse (c1 c2 : SpanContext) : CandidateObj SpanContext :=
  {| obj_class := Spouse;
     obj_dict := <["person2" := VContext c2]> {["person1" := VContext c1]} |}.

Definition ann : SpanContext :=
  {| span_stable_id := "doc1::span:0:3"; span_sentence := 1%nat |}.
Definition bob : SpanContext :=
  {| span_stable_id := "doc1::span:8:11"; span_sentence := 1%nat |}.
Definition eve : SpanContext :=
  {| span_stable_id := "doc1::span:40:43"; span_sentence := 2%nat |}.

(** The same pair of spans loaded twice, and another pair. *)
Definition two_loads : gmap ref (CandidateObj SpanContext) :=
  <[2%nat := spouse ann eve]>
    (<[1%nat := spouse ann bob]> {[0%nat := spouse ann bob]}).

(** Two records have the same per-token annotations, apart from the
    entity fields and the relative offsets. *)
Definition same_annotations (p q : SpacyParser.Parts) : Prop :=
  SpacyParser.words q = SpacyParser.words p ∧
  SpacyParser.char_offsets q = SpacyParser.char_offsets p ∧
  SpacyParser.abs_char_offsets q = SpacyParser.abs_char_offsets p ∧
  SpacyParser.dep_parents q = SpacyParser.dep_parents p ∧
  SpacyParser.position q = SpacyParser.position p.

(** The text "Ann met Bob. Hi Bob" as spaCy parses it: two sentences, and
    between them a span without tokens. *)
Module Sample.
Import SpacyParser.

Definition entries : list TokenC :=
  [ {| orth := "Ann"; lemma_ := "ann"; tag_ := "NNP"; ent_type_ := "PERSON";
       idx := 0; head := 1%nat; dep_ := "nsubj" |};
    {| orth := "met"; lemma_ := "meet"; tag_ := "VBD"; ent_type_ := "";
       idx := 4; head := 1%nat; dep_ := "ROOT" |};
    {| orth := "Bob"; lemma_ := "bob"; tag_ := "NNP"; ent_type_ := "PERSON";
       idx := 8; head := 1%nat; dep_ := "dobj" |};
    {| orth := "."; lemma_ := "."; tag_ := "."; ent_type_ := "";
       idx := 11; head := 1%nat; dep_ := "punct" |};
    {| orth := "Hi"; lemma_ := "hi"; tag_ := "UH"; ent_type_ := "";
       idx := 13; head := 4%nat; dep_ := "ROOT" |};
    {| orth := "Bob"; lemma_ := "bob"; tag_ := "NNP"; ent_type_ := "PERSON";
       idx := 16; head := 4%nat; dep_ := "npadvmod" |} ].

Definition first_sentence : Span :=
  {| doc := entries; start := 0; end_ := 4;
     start_char := 0; end_char := 12; text := "Ann met Bob." |}.

Definition empty_sentence : Span :=
  {| doc := entries; start := 4; end_ := 4;
     start_char := 13; end_char := 13; text := "" |}.

Definition second_sentence : Span :=
  {| doc := entries; start := 4; end_ := 6;
     start_char := 13; end_char := 19; text := "Hi Bob" |}.

(** The records that [parse] yields for the two sentences when no
    document is given. *)
Definition first_record : Parts :=
  {| words := ["Ann"; "met"; "Bob"; "."];
     lemmas := ["ann"; "meet"; "bob"; "."];
     pos_tags := ["NNP"; "VBD"; "NNP"; "."];
     ner_tags := ["PERSON"; "O"; "PERSON"; "O"];
     char_offsets := [0; 4; 8; 11];
     abs_char_offsets := [0; 4; 8; 11];
     dep_parents := [2; 0; 2; 2];
     dep_labels := ["nsubj"; "ROOT"; "dobj"; "punct"];
     position := 0;
     document := None;
     sent_text := "Ann met Bob.";
     entity_cids := ["O"; "O"; "O"; "O"];
     entity_types := ["O"; "O"; "O"; "O"];
     stable_id := None |}.

Definition second_record : Parts :=
  {| words := ["Hi"; "Bob"];
     lemmas := ["hi"; "bob"];
     pos_tags := ["UH"; "NNP"];
     ner_tags := ["O"; "PERSON"];
     char_offsets := [0; 3];
     abs_char_offsets := [13; 16];
     dep_parents := [0; 1];
     dep_labels := ["ROOT"; "npadvmod"];
     position := 1;
     document := None;
     sent_text := "Hi Bob";
     entity_cids := ["O"; "O"];
     entity_types := ["O"; "O"];
     stable_id := None |}.

(** A document with one hit, at the offset of "Bob" in the first
    sentence, where the token is not the placeholder that
    [SpacyPretagged] asserts. *)
Definition tagged_document : Document :=
  {| doc_stable_id := "doc1"; hit_starts := [8]; bmb_id := "42" |}.

(** A [construct_stable_id] that keeps the document's identifier and the
    type of the context. *)
Definition stable_id_of (d : Document) (type : string) (first last : Z)
  : result string :=
  Ok (doc_stable_id d +:+ "::" +:+ type).

End Sample.

(** ** Definitions used to state further properties *)






(** A value that is a [Context]. *)
Definition is_context {Ctx} (v : value Ctx) : bool :=
  match v with VContext _ => true | _ => false end.

(** A [Spouse] of which only the first role is set. *)
Definition half_spouse : CandidateObj SpanContext :=
  {| obj_class := Spouse; obj_dict := {["person1" := VContext ann]} |}.

(** An instance of the variant without roles. *)
Definition no_roles : CandidateObj SpanContext :=
  {| obj_class := build_class "Nothing" [] "nothing"; obj_dict := ∅ |}.

(** The fields of a record that only the loop over the tokens and the
    last steps of [parse_sent] write. *)
Definition same_tags (p q : SpacyParser.Parts) : Prop :=
  SpacyParser.lemmas q = SpacyParser.lemmas p ∧
  SpacyParser.pos_tags q = SpacyParser.pos_tags p ∧
  SpacyParser.ner_tags q = SpacyParser.ner_tags p ∧
  SpacyParser.dep_labels q = SpacyParser.dep_labels p ∧
  SpacyParser.document q = SpacyParser.document p ∧
  SpacyParser.sent_text q = SpacyParser.sent_text p ∧
  SpacyParser.stable_id q = SpacyParser.stable_id p ∧
  length (SpacyParser.entity_cids q) = length (SpacyParser.words q) ∧
  length (SpacyParser.entity_types q) = length (SpacyParser.words q).

(** The named-entity tag that is recorded for a token. *)
Definition ner_tag (token : SpacyParser.Token) : string :=
  if bool_decide (SpacyParser.ent_type_ (SpacyParser.c token) = "") then "O"
  else SpacyParser.ent_type_ (SpacyParser.c token).

(** A hit that lies in the character span of a sentence. *)
Definition hit_in (sent : SpacyParser.Span) (x : Z) : Prop :=
  SpacyParser.start_char sent ≤ x ∧ x ≤ SpacyParser.end_char sent.

(** The position [index] is the first one whose offset is at or after
    [hit]. *)
Definition first_at_or_after (hit : Z) (offsets : list Z) (index : nat)
  : Prop :=
  (∃ x, offsets !! index = Some x ∧ hit ≤ x) ∧
  ∀ (j : nat) y, (j < index)%nat → offsets !! j = Some y → y < hit.

(** The entity fields [types] and [cids] after the hits [hits] were
    overlaid on tokens at the offsets [offsets]: every hit marked the first
    token at or after it, which is the placeholder, and the other tokens
    hold "O". *)
Definition hits_marked (id : string) (offsets : list Z)
    (words types cids : list string) (hits : list Z) : Prop :=
  length types = length offsets ∧
  length cids = length offsets ∧
  (∀ hit, hit ∈ hits →
     ∃ index, first_at_or_after hit offsets index ∧
              words !! index = Some "BmBTarget" ∧
              types !! index = Some "hit" ∧
              cids !! index = Some id) ∧
  (∀ k : nat, (k < length offsets)%nat →
     (¬ ∃ hit, hit ∈ hits ∧ first_at_or_after hit offsets k) →
     types !! k = Some "O" ∧ cids !! k = Some "O").

(** The text "See BmBTarget now", with the placeholder that
    [SpacyPretagged] expects at offset 4, a document whose hit is at that
    offset, and one whose hit is inside the last token. *)
Module Pretagged.
Import SpacyParser.

Definition entries : list TokenC :=
  [ {| orth := "See"; lemma_ := "see"; tag_ := "VB"; ent_type_ := "";
       idx := 0; head := 0%nat; dep_ := "ROOT" |};
    {| orth := "BmBTarget"; lemma_ := "bmbtarget"; tag_ := "NNP";
       ent_type_ := ""; idx := 4; head := 0%nat; dep_ := "dobj" |};
    {| orth := "now"; lemma_ := "now"; tag_ := "RB"; ent_type_ := "";
       idx := 14; head := 0%nat; dep_ := "advmod" |} ].

Definition sentence : Span :=
  {| doc := entries; start := 0; end_ := 3;
     start_char := 0; end_char := 17; text := "See BmBTarget now" |}.

Definition aligned_document : Document :=
  {| doc_stable_id := "doc2"; hit_starts := [4]; bmb_id := "42" |}.

Definition misaligned_document : Document :=
  {| doc_stable_id := "doc2"; hit_starts := [15]; bmb_id := "42" |}.

Definition far_document : Document :=
  {| doc_stable_id := "doc2"; hit_starts := [90]; bmb_id := "42" |}.

Definition tagged_record : Parts :=
  {| words := ["See"; "BmBTarget"; "now"];
     lemmas := ["see"; "bmbtarget"; "now"];
     pos_tags := ["VB"; "NNP"; "RB"];
     ner_tags := ["O"; "O"; "O"];
     char_offsets := [0; 4; 14];
     abs_char_offsets := [0; 4; 14];
     dep_parents := [0; 1; 1];
     dep_labels := ["ROOT"; "dobj"; "advmod"];
     position := 0;
     document := Some aligned_document;
     sent_text := "See BmBTarget now";
     entity_cids := ["O"; "42"; "O"];
     entity_types := ["O"; "hit"; "O"];
     stable_id := Some "doc2::sentence" |}.

End Pretagged.

(** ** Properties of the Python preliminaries *)

Section py_lemmas.

Context {A B : Type}.

Lemma bind_Ok (x : A) (k : A → result B) : Ok x ≫= k = k x.
Proof. done. Qed.

Lemma for_each_Ok (f : A → result B) (g : A → B) (xs : list A) :
  (∀ x, x ∈ xs → f x = Ok (g x)) → for_each f xs = Ok (g <$> xs).
Proof.
  induction xs as [|x xs IH]; intros Hf; [done|].
  cbn. rewrite Hf by left. cbn.
  rewrite IH; [done|]. intros y Hy. apply Hf. by right.
Qed.

Lemma for_each_Forall2 (f : A → result B) (xs : list A) (ys : list B) :
  Forall2 (λ x y, f x = Ok y) xs ys → for_each f xs = Ok ys.
Proof.
  induction 1 as [|x y xs ys Hxy _ IH]; [done|].
  cbn. rewrite Hxy. cbn. by rewrite IH.
Qed.

Lemma getitem_0_cons (x : A) (xs : list A) : getitem (x :: xs) 0 = Ok x.
Proof.
  unfold getitem. cbn [length].
  replace (0 <? 0) with false by done.
  replace (0 <? 0) with false by done.
  destruct (Z.leb_spec (Z.of_nat (S (length xs))) 0); [lia|done].
Qed.

Lemma getitem_0_nil : getitem (@nil A) 0 = Raise (IndexError "index out of range").
Proof. done. Qed.

Lemma getitem_0_Ok (xs : list A) (x : A) :
  getitem xs 0 = Ok x → xs !! 0%nat = Some x.
Proof.
  destruct xs as [|y ys]; [done|]. rewrite getitem_0_cons. by intros [= ->].
Qed.

Lemma getitem_last_returns (x : A) (xs : list A) :
  is_Ok (getitem (x :: xs) (-1)) = true.
Proof.
  unfold getitem. replace (-1 <? 0) with true by done.
  set (n := Z.of_nat (length (x :: xs))).
  assert (1 ≤ n) as Hn by (subst n; cbn [length]; lia).
  destruct (Z.ltb_spec (-1 + n) 0); [lia|].
  destruct (Z.leb_spec n (-1 + n)); [lia|]. cbn [orb].
  destruct (lookup_lt_is_Some_2 (x :: xs) (Z.to_nat (-1 + n))) as [y ->];
    [subst n; lia|done].
Qed.

Lemma count_all `{EqDecision A} (x : A) (xs : list A) :
  count x xs = length xs ↔ Forall (λ y, y = x) xs.
Proof.
  unfold count. induction xs as [|y ys IH]; [by split|].
  rewrite filter_cons. destruct (decide (y = x)) as [->|Hne].
  - cbn. rewrite Forall_cons. split.
    + intros [= Hlen]. split; [done|]. by apply IH.
    + intros [_ Hall]. f_equal. by apply IH.
  - split.
    + intros Hlen. pose proof (length_filter (λ y, y = x) ys). cbn in *. lia.
    + intros Hall. by apply Forall_cons in Hall as [? _].
Qed.

End py_lemmas.

(** ** Properties of the storage engine *)


Lemma table_create_fresh (engine : Engine) (t : Table) :
  has_table engine (tbl_name t) = false →
  table_create t engine = Ok (engine ++ [t]).
Proof. intros Hfresh. unfold table_create. by rewrite Hfresh. Qed.

Lemma table_create_keeps_names_distinct (engine engine' : Engine) (t : Table) :
  NoDup (tbl_name <$> engine) →
  table_create t engine = Ok engine' →
  NoDup (tbl_name <$> engine').
Proof.
  unfold table_create, has_table. intros Hnodup.
  case_bool_decide as Hin; [done|]. intros [= <-].
  rewrite fmap_app. apply NoDup_app. split; [done|]. split.
  - intros name Hname Heq. cbn in Heq.
    apply list_elem_of_singleton in Heq as ->. done.
  - apply NoDup_singleton.
Qed.

(** ** Properties of the schema factory *)

Section factory_properties.

Variable to_under : string → string.


Lemma foldl_add_arg_keeps_keys (table_name : string) (args : list string)
    (class_attribs : gmap string attrib) (unique_con_args : list Column)
    (key : string) :
  key ∈ dom class_attribs →
  key ∈ dom (foldl (add_arg table_name) (class_attribs, unique_con_args) args).1.
Proof.
  revert class_attribs unique_con_args.
  induction args as [|arg args IH]; intros class_attribs unique_con_args Hkey;
    [done|].
  cbn [foldl add_arg]. apply IH. rewrite !dom_insert. set_solver.
Qed.

Lemma foldl_add_arg_role_keys (table_name : string) (args : list string)
    (class_attribs : gmap string attrib) (unique_con_args : list Column)
    (role : string) :
  role ∈ args →
  role ∈ dom (foldl (add_arg table_name) (class_attribs, unique_con_args) args).1.
Proof.
  revert class_attribs unique_con_args.
  induction args as [|arg args IH]; intros class_attribs unique_con_args Hrole.
  - by apply elem_of_nil in Hrole.
  - cbn [foldl add_arg]. apply elem_of_cons in Hrole as [->|Hrole].
    + apply foldl_add_arg_keeps_keys. rewrite !dom_insert. set_solver.
    + by apply IH.
Qed.


Lemma build_class_tablename (class_name : string) (args : list string)
    (table_name : string) :
  cls_tablename (build_class class_name args table_name) = table_name.
Proof. unfold build_class. by destruct (foldl _ _ _). Qed.



Lemma build_class_role_attribs (class_name : string) (args : list string)
    (table_name role : string) :
  role ∈ args →
  role ∈ dom (cls_attribs (build_class class_name args table_name)).
Proof.
  intros Hrole. unfold build_class.
  pose proof (foldl_add_arg_role_keys table_name args initial_attribs [] role
                Hrole) as Hdom.
  by destruct (foldl _ _ _).
Qed.

(** The factory always returns: the class is built from the arguments as
    they are, and the table is created when the engine does not have one
    of that name. *)
Lemma candidate_subclass_returns (class_name : string) (args : list string)
    (table_name : option string) (engine : Engine) :
  let name := default (to_under class_name) table_name in
  let C := build_class class_name args name in
  candidate_subclass to_under class_name args table_name engine =
    Ok (C, if has_table engine name then engine else engine ++ [__table__ C]).
Proof.
  intros name C. unfold candidate_subclass.
  change (match table_name with
          | Some t => t
          | None => to_under class_name
          end) with name.
  fold C. destruct (has_table engine name) eqn:Hhas; [done|].
  cbn [negb]. rewrite table_create_fresh; [done|].
  cbn. subst C. by rewrite build_class_tablename.
Qed.


End factory_properties.


(** A repeated role name is accepted as well: the second occurrence
    replaces the attributes of the first, and the constraint lists one
    column per occurrence. *)
Example repeated_role_is_accepted :
  ∃ C engine',
    candidate_subclass camel_to_under "Pair" ["a"; "a"] None [] =
      Ok (C, engine') ∧
    cls_argnames C = ["a"; "a"] ∧
    size (cls_attribs C) = 4%nat ∧
    constraint_keys <$> cls_table_args C = [["a_id"; "a_id"]] ∧
    tbl_name <$> engine' = ["pair"].
Proof. eexists _, _. split; [vm_compute; reflexivity|]. by vm_compute. Qed.




(** The first call keeps the table names of the engine distinct. *)
Lemma candidate_subclass_keeps_names_distinct
    (to_under : string → string) (class_name : string) (args : list string)
    (table_name : option string) (engine engine' : Engine)
    (C : CandidateClass) :
  NoDup (tbl_name <$> engine) →
  candidate_subclass to_under class_name args table_name engine =
    Ok (C, engine') →
  NoDup (tbl_name <$> engine').
Proof.
  intros Hnodup. rewrite candidate_subclass_returns.
  destruct (has_table engine _) eqn:Hhas; intros [= _ <-]; [done|].
  eapply table_create_keeps_names_distinct; [done|].
  apply table_create_fresh. cbn [__table__ tbl_name].
  by rewrite build_class_tablename.
Qed.


(** ** Properties of the [Candidate] base class *)

Section candidate_properties.

Context `{ContextLike Ctx}.

(** When every role is bound to a context, [get_contexts] returns these
    contexts in the order of [__argnames__]. *)
Lemma get_contexts_bound (self : CandidateObj Ctx) (cs : list Ctx) :
  Forall2 (bound self) (cls_argnames (obj_class self)) cs →
  get_contexts self = Ok (VContext <$> cs).
Proof.
  intros Hbound. unfold get_contexts. apply for_each_Forall2.
  apply Forall2_fmap_r. eapply Forall2_impl; [exact Hbound|].
  intros role ctx Hrole. unfold getattr. by rewrite Hrole.
Qed.

Lemma parents_of_contexts (cs : list Ctx) :
  for_each call_get_parent (VContext <$> cs) = Ok (ctx_get_parent <$> cs).
Proof.
  induction cs as [|ctx cs IH]; [done|]. cbn. rewrite IH. done.
Qed.

Lemma stable_ids_of_contexts (cs : list Ctx) :
  for_each attr_stable_id (VContext <$> cs) = Ok (stable_id <$> cs).
Proof.
  induction cs as [|ctx cs IH]; [done|]. cbn. rewrite IH. done.
Qed.

Lemma hash_of_stable_ids (py_hash : list string → Z)
    (self : CandidateObj Ctx) (ids : list string) :
  stable_id_tuple self = Ok ids → __hash__ py_hash self = Ok (py_hash ids).
Proof. intros Hids. unfold __hash__. by rewrite Hids. Qed.

(** C1 (amended): two candidates whose tuples of stable identifiers match
    have the same hash, computed from that tuple.  [Candidate] defines no
    equality: two candidates are equal exactly when they are one object,
    so that candidates whose tuples of stable identifiers differ are not
    equal. *)
Theorem candidate_hash_and_equality (py_hash : list string → Z)
    (store : gmap ref (CandidateObj Ctx)) (a b : ref)
    (oa ob : CandidateObj Ctx) :
  store !! a = Some oa →
  store !! b = Some ob →
  (∀ ids, stable_id_tuple oa = Ok ids → stable_id_tuple ob = Ok ids →
          __hash__ py_hash oa = Ok (py_hash ids) ∧
          __hash__ py_hash ob = Ok (py_hash ids)) ∧
  (candidate_eq a b = true ↔ a = b) ∧
  (stable_id_tuple oa ≠ stable_id_tuple ob → candidate_eq a b = false).
Proof.
  intros Ha Hb. split; [|split].
  - intros ids Hoa Hob. split; by apply hash_of_stable_ids.
  - unfold candidate_eq. apply bool_decide_eq_true.
  - intros Hdiff. unfold candidate_eq. apply bool_decide_eq_false.
    intros ->. rewrite Ha in Hb. injection Hb as ->. done.
Qed.

(** C3: on a candidate whose roles, at least one, are bound to contexts,
    [get_parent] returns the parent of the first context when the parent
    of every context equals it, and raises otherwise. *)
Theorem get_parent_common_parent (self : CandidateObj Ctx)
    (c0 : Ctx) (cs : list Ctx) :
  Forall2 (bound self) (cls_argnames (obj_class self)) (c0 :: cs) →
  (Forall (λ c, ctx_get_parent c = ctx_get_parent c0) cs →
   get_parent self = Ok (ctx_get_parent c0)) ∧
  (¬ Forall (λ c, ctx_get_parent c = ctx_get_parent c0) cs →
   get_parent self =
     Raise (Exception "Contexts do not all have same parent")).
Proof.
  intros Hbound. unfold get_parent.
  rewrite (get_contexts_bound _ _ Hbound). cbn [mbind result_bind].
  rewrite parents_of_contexts. cbn [mbind result_bind fmap list_fmap].
  rewrite getitem_0_cons, bind_Ok.
  assert (count (ctx_get_parent c0) (ctx_get_parent c0 :: (ctx_get_parent <$> cs))
          = length (ctx_get_parent c0 :: (ctx_get_parent <$> cs))
          ↔ Forall (λ c, ctx_get_parent c = ctx_get_parent c0) cs) as Hcount.
  { rewrite count_all, Forall_cons, Forall_fmap.
    split; [intros [_ Hall]; exact Hall|intros Hall; split; [done|exact Hall]]. }
  split; intros Hall; case_bool_decide as Hdec; try done; tauto.
Qed.



End candidate_properties.

(** *** The properties on the [Spouse] variant *)

(** C1, as stated, fails: the same pair of spans loaded twice gives two
    candidates with the same tuple of stable identifiers, and [==] tells
    them apart. *)
Lemma same_stable_ids_not_equal :
  ∃ oa ob ids,
    two_loads !! 0%nat = Some oa ∧
    two_loads !! 1%nat = Some ob ∧
    stable_id_tuple oa = Ok ids ∧
    stable_id_tuple ob = Ok ids ∧
    candidate_eq 0%nat 1%nat = false.
Proof.
  exists (spouse ann bob), (spouse ann bob),
    [span_stable_id ann; span_stable_id bob].
  repeat split; by vm_compute.
Qed.

Lemma candidate_hash_and_equality_witness :
  two_loads !! 0%nat = Some (spouse ann bob) ∧
  two_loads !! 2%nat = Some (spouse ann eve) ∧
  (∀ ids, stable_id_tuple (spouse ann bob) = Ok ids →
          stable_id_tuple (spouse ann eve) = Ok ids →
          __hash__ sum_hash (spouse ann bob) = Ok (sum_hash ids) ∧
          __hash__ sum_hash (spouse ann eve) = Ok (sum_hash ids)) ∧
  (candidate_eq 0%nat 2%nat = true ↔ 0%nat = 2%nat) ∧
  (stable_id_tuple (spouse ann bob) ≠ stable_id_tuple (spouse ann eve) →
   candidate_eq 0%nat 2%nat = false).
Proof.
  split; [reflexivity|]. split; [reflexivity|].
  apply (candidate_hash_and_equality sum_hash two_loads 0%nat 2%nat);
    reflexivity.
Defined.

Lemma spouse_bound (c1 c2 : SpanContext) :
  Forall2 (bound (spouse c1 c2)) (cls_argnames (obj_class (spouse c1 c2)))
          [c1; c2].
Proof. repeat constructor. Defined.

Lemma get_parent_common_parent_witness :
  Forall2 (bound (spouse ann bob)) (cls_argnames (obj_class (spouse ann bob)))
          [ann; bob] ∧
  get_parent (spouse ann bob) = Ok (ctx_get_parent ann) ∧
  get_parent (spouse ann eve) =
    Raise (Exception "Contexts do not all have same parent").
Proof.
  split; [apply spouse_bound|]. split.
  - apply (proj1 (get_parent_common_parent (spouse ann bob) ann [bob]
                    (spouse_bound ann bob))).
    by repeat constructor.
  - apply (proj2 (get_parent_common_parent (spouse ann eve) ann [eve]
                    (spouse_bound ann eve))).
    intros Hall. by inversion Hall.
Defined.


(** ** Properties of the parser adapter *)

Section parser_properties.

Import SpacyParser.

Variable construct_stable_id : Document → string → Z → Z → result string.

(** The token at position [k] of a sentence is the entry [start + k] of
    the document. *)
Lemma tokens_lookup (sent : Span) (k : nat) (token : Token) :
  tokens sent !! k = Some token → i token = (start sent + k)%nat.
Proof.
  unfold tokens. rewrite list_lookup_imap.
  destruct (_ !! k); [|done]. cbn. by intros [= <-].
Qed.

Lemma head_idx_root (sent : Span) (token : Token) :
  head (c token) = i token → head_idx sent token = Ok 0.
Proof.
  intros Hroot. unfold head_idx, head_is. by rewrite bool_decide_eq_true_2.
Qed.

Lemma head_idx_governor (sent : Span) (token governor : Token)
    (j : nat) (h : Z) :
  head_idx sent token = Ok h →
  head (c token) ≠ i token →
  tokens sent !! j = Some governor →
  i governor = head (c token) →
  h = Z.of_nat j + 1.
Proof.
  intros Hh Hnot_root Hgov Hhead. unfold head_idx, head_is in Hh.
  rewrite bool_decide_eq_false_2 in Hh by done.
  destruct (tokens sent) as [|sent0 rest] eqn:Htokens; [done|].
  rewrite getitem_0_cons, bind_Ok in Hh. injection Hh as <-.
  assert (i sent0 = (start sent + 0)%nat) as Hfirst.
  { apply tokens_lookup. by rewrite Htokens. }
  assert (i governor = (start sent + j)%nat) as Hj.
  { apply tokens_lookup. by rewrite Htokens. }
  lia.
Qed.

(** A non-root token of a non-empty sentence always gets an index. *)
Lemma head_idx_returns (sent : Span) (token : Token) (k : nat) :
  tokens sent !! k = Some token → Py.is_Ok (head_idx sent token) = true.
Proof.
  intros Hk. unfold head_idx. destruct (head_is token); [done|].
  destruct (tokens sent) as [|sent0 rest]; [done|].
  by rewrite getitem_0_cons, bind_Ok.
Qed.

(** What the loop over the tokens appends. *)
Lemma for_tokens_appends (sent : Span) (toks : list Token)
    (parts parts' : Parts) :
  for_tokens sent parts toks = Ok parts' →
  words parts' = words parts ++ ((λ t, orth (c t)) <$> toks) ∧
  char_offsets parts' = char_offsets parts ++ ((λ t, idx (c t)) <$> toks) ∧
  abs_char_offsets parts' =
    abs_char_offsets parts ++ ((λ t, idx (c t)) <$> toks) ∧
  ∃ hs, Forall2 (λ t h, head_idx sent t = Ok h) toks hs ∧
        dep_parents parts' = dep_parents parts ++ hs.
Proof.
  revert parts. induction toks as [|token toks IH]; intros parts.
  - intros [= <-]. rewrite !app_nil_r. repeat split.
    exists []. by rewrite app_nil_r.
  - cbn [for_tokens]. unfold append_token.
    destruct (head_idx sent token) as [h|e] eqn:Hh; [|done].
    rewrite bind_Ok. cbn [mret result_ret]. rewrite bind_Ok.
    intros Hrest. apply IH in Hrest as (Hw & Hc & Ha & hs & Hhs & Hd).
    cbn in Hw, Hc, Ha, Hd. rewrite <- !app_assoc in Hw, Hc, Ha, Hd.
    repeat split; try done.
    exists (h :: hs). split; [by constructor|done].
Qed.

Lemma for_tokens_returns (sent : Span) (toks : list Token) (parts : Parts) :
  (∀ token, token ∈ toks → ∃ k, tokens sent !! k = Some token) →
  Py.is_Ok (for_tokens sent parts toks) = true.
Proof.
  revert parts. induction toks as [|token toks IH]; intros parts Hin; [done|].
  cbn [for_tokens]. unfold append_token.
  destruct (Hin token) as [k Hk]; [by left|].
  apply head_idx_returns in Hk.
  destruct (head_idx sent token) as [h|e]; [|done].
  rewrite bind_Ok. cbn [mret result_ret]. rewrite bind_Ok.
  apply IH. intros token' Hin'. apply Hin. by right.
Qed.

Lemma relative_offsets_cons (first : Z) (offsets : list Z) :
  relative_offsets (first :: offsets) =
    Ok ((λ p, p - first) <$> first :: offsets).
Proof.
  unfold relative_offsets. apply for_each_Ok. intros p _.
  by rewrite getitem_0_cons.
Qed.

Lemma relative_offsets_nil : relative_offsets [] = Ok [].
Proof. done. Qed.

(** The overlay of the hits writes the entity fields only. *)
Lemma for_hits_same_annotations (d : Document) (hits : list Z)
    (parts parts' : Parts) :
  for_hits d parts hits = Ok parts' → same_annotations parts parts'.
Proof.
  revert parts. induction hits as [|hit hits IH]; intros parts.
  - by intros [= <-].
  - cbn [for_hits]. unfold overlay_hit.
    destruct (hit_indices _ _) as [|index ?]; [done|].
    case_bool_decide; [|done]. rewrite bind_Ok. intros Hrest.
    apply IH in Hrest. exact Hrest.
Qed.

Lemma update_entity_attributes_same_annotations (self : parser_class)
    (parts parts' : Parts) (sent : Span) (document' : option Document) :
  update_entity_attributes self parts sent document' = Ok parts' →
  same_annotations parts parts'.
Proof.
  destruct self; cbn.
  - by intros [= <-].
  - unfold SpacyPretagged_update_entity_attributes.
    destruct document' as [d|]; [|done]. rewrite bind_Ok.
    intros Hhits. apply for_hits_same_annotations in Hhits. exact Hhits.
Qed.


(** What a record returned by [parse_sent] is made of. *)
Lemma parse_sent_Ok (self : parser_class) (sent : Span)
    (document' : option Document) (position' : Z) (parts : Parts) :
  parse_sent construct_stable_id self sent document' position' = Ok parts →
  ∃ p1,
    for_tokens sent empty_parts (tokens sent) = Ok p1 ∧
    words parts = words p1 ∧
    abs_char_offsets parts = abs_char_offsets p1 ∧
    dep_parents parts = dep_parents p1 ∧
    relative_offsets (char_offsets p1) = Ok (char_offsets parts) ∧
    position parts = position' ∧
    ∃ first, abs_char_offsets parts !! 0%nat = Some first.
Proof.
  unfold parse_sent. intros Hret.
  destruct (for_tokens _ _ _) as [p1|] eqn:Hloop; [|done].
  rewrite bind_Ok in Hret.
  destruct (relative_offsets _) as [offsets|] eqn:Hrel; [|done].
  rewrite bind_Ok in Hret.
  destruct (update_entity_attributes _ _ _ _) as [p2|] eqn:Hupd; [|done].
  rewrite bind_Ok in Hret.
  apply update_entity_attributes_same_annotations in Hupd
    as (Hw & Hc & Ha & Hd & Hp). cbn in Hw, Hc, Ha, Hd, Hp.
  destruct (getitem (abs_char_offsets p2) 0) as [first|] eqn:Hfirst; [|done].
  apply getitem_0_Ok in Hfirst. rewrite bind_Ok in Hret.
  destruct (getitem (char_offsets p2) (-1)) as [last_offset|]; [|done].
  rewrite bind_Ok in Hret.
  destruct (getitem (words p2) (-1)) as [last_word|]; [|done].
  rewrite bind_Ok in Hret.
  assert (same_annotations p2 parts) as (Hqw & Hqc & Hqa & Hqd & Hqp).
  { destruct document' as [d|].
    - destruct (construct_stable_id _ _ _ _) as [sid|]; [|done].
      rewrite bind_Ok in Hret. by injection Hret as <-.
    - by injection Hret as <-. }
  exists p1. rewrite Hqw, Hqc, Hqa, Hqd, Hqp, Hw, Hc, Ha, Hd, Hp.
  rewrite Ha in Hfirst. repeat split; [done|]. by exists first.
Qed.

(** [Spacy.parse_sent] returns a record for every sentence that has a
    token, when no document is given. *)
Lemma parse_sent_Spacy_returns (sent : Span) (position' : Z) :
  tokens sent ≠ [] →
  Py.is_Ok (parse_sent construct_stable_id Spacy sent None position') = true.
Proof.
  intros Hnonempty. unfold parse_sent.
  pose proof (for_tokens_returns sent (tokens sent) empty_parts) as Hloop.
  destruct (for_tokens _ _ _) as [p1|] eqn:Hp1; cycle 1.
  { apply Hloop. intros token [k Hk]%list_elem_of_lookup. by exists k. }
  apply for_tokens_appends in Hp1 as (Hw & Hc & Ha & _). cbn in Hw, Hc, Ha.
  rewrite bind_Ok, Hc.
  destruct (tokens sent) as [|token toks]; [done|]. cbn [fmap list_fmap].
  rewrite relative_offsets_cons, bind_Ok.
  cbn [update_entity_attributes]. rewrite bind_Ok. cbn. rewrite Ha, Hw.
  cbn [fmap list_fmap]. rewrite getitem_0_cons, bind_Ok.
  pose proof (getitem_last_returns (idx (c token) - idx (c token))
                (list_fmap _ _ (λ p, p - idx (c token))
                           (list_fmap _ _ (λ t, idx (c t)) toks))) as Hoff.
  destruct (getitem _ (-1)) as [last_offset|]; [|done]. rewrite bind_Ok.
  pose proof (getitem_last_returns (orth (c token))
                (list_fmap _ _ (λ t, orth (c t)) toks)) as Hword.
  destruct (getitem _ (-1)) as [last_word|]; [|done]. by rewrite bind_Ok.
Qed.

(** C8: in a record returned for a sentence, the entry of [dep_parents]
    for a token is 0 when the token is its own head, and otherwise one
    more than the position in the sentence of the token that is its
    head. *)
Theorem dep_parents_root_or_governor (self : parser_class) (sent : Span)
    (document' : option Document) (position' : Z) (parts : Parts)
    (k : nat) (token : Token) :
  parse_sent construct_stable_id self sent document' position' = Ok parts →
  tokens sent !! k = Some token →
  (head (c token) = i token → dep_parents parts !! k = Some 0) ∧
  (∀ (j : nat) (governor : Token),
      head (c token) ≠ i token →
      tokens sent !! j = Some governor →
      i governor = head (c token) →
      dep_parents parts !! k = Some (Z.of_nat j + 1)).
Proof.
  intros Hparts Htoken.
  apply parse_sent_Ok in Hparts as (p1 & Hloop & _ & _ & Hdep & _).
  apply for_tokens_appends in Hloop as (_ & _ & _ & hs & Hhs & Hp1).
  cbn in Hp1. rewrite Hdep, Hp1.
  destruct (Forall2_lookup_l _ _ _ _ _ Hhs Htoken) as (h & Hk & Hh).
  rewrite Hk. split.
  - intros Hroot. rewrite head_idx_root in Hh by done. by injection Hh as <-.
  - intros j governor Hnot_root Hgov Hhead. f_equal.
    by eapply head_idx_governor.
Qed.


(** *** The generator [parse] *)





(** Every record yielded was returned by [parse_sent] for a sentence of
    the document. *)
Lemma parse_from_yielded (self : parser_class)
    (document' : option Document) (sents : list Span) (st : parse_state)
    (parts : Parts) :
  parts ∈ st_yielded (parse_from construct_stable_id self document' st sents) →
  parts ∈ st_yielded st ∨
  ∃ sent position',
    sent ∈ sents ∧
    parse_sent construct_stable_id self sent document' position' = Ok parts.
Proof.
  revert st. induction sents as [|sent sents IH]; intros st; [by left|].
  cbn [parse_from foldl]. intros Hin. apply IH in Hin as [Hin|Hin].
  - unfold parse_step in Hin.
    destruct (parse_sent _ _ _ _ _) as [parts'|] eqn:Hsent; cbn in Hin;
      [|by left].
    apply elem_of_app in Hin as [Hin|Hin]; [by left|].
    apply list_elem_of_singleton in Hin as ->. right.
    exists sent, (st_position st). split; [by left|done].
  - destruct Hin as (sent' & position' & Hsent' & Hparts). right.
    exists sent', position'. split; [by right|done].
Qed.


(** C10: in every record that [parse] yields, the relative offset of a
    token is its absolute offset minus the absolute offset of the first
    token of the sentence; the relative offset of the first token is 0. *)
Theorem char_offsets_relative_to_first_token (self : parser_class)
    (document' : option Document) (sents : list Span) (parts : Parts) :
  parts ∈ (parse construct_stable_id self document' sents).1 →
  ∃ first,
    abs_char_offsets parts !! 0%nat = Some first ∧
    char_offsets parts !! 0%nat = Some 0 ∧
    ∀ k : nat, char_offsets parts !! k =
               (λ a, a - first) <$> abs_char_offsets parts !! k.
Proof.
  unfold parse. cbn [fst]. intros Hin.
  apply parse_from_yielded in Hin as [Hin|Hin];
    [by apply elem_of_nil in Hin|].
  destruct Hin as (sent & position' & _ & Hparts).
  apply parse_sent_Ok in Hparts
    as (p1 & Hloop & _ & Habs & _ & Hrel & _ & first & Hfirst).
  apply for_tokens_appends in Hloop as (_ & Hc1 & Ha1 & _).
  cbn in Hc1, Ha1. rewrite Hc1 in Hrel. rewrite Habs, Ha1 in Hfirst |- *.
  destruct ((λ t, idx (c t)) <$> tokens sent) as [|first' rest]; [done|].
  injection Hfirst as ->.
  rewrite relative_offsets_cons in Hrel. injection Hrel as <-.
  exists first. split; [done|]. split.
  - cbn. f_equal. lia.
  - intros k.
    change (first - first :: list_fmap Z Z (λ p, p - first) rest)
      with ((λ p, p - first) <$> first :: rest).
    by rewrite list_lookup_fmap.
Qed.

End parser_properties.

(** *** The properties on the sample document *)

Section sample_document.

Import SpacyParser Sample.

(** The two sentences are parsed, and the span without tokens, on which
    [parse_sent] raises, is skipped with a warning. *)
Example parse_sample :
  parse stable_id_of Spacy None
        [first_sentence; empty_sentence; second_sentence] =
    ([first_record; second_record],
     [{| warn_position := 1;
         warn_exn := IndexError "index out of range" |}]).
Proof. by vm_compute. Qed.

Lemma dep_parents_root_or_governor_witness :
  parse_sent stable_id_of Spacy first_sentence None 0 = Ok first_record ∧
  tokens first_sentence !! 2%nat =
    Some {| i := 2;
            c := {| orth := "Bob"; lemma_ := "bob"; tag_ := "NNP";
                    ent_type_ := "PERSON"; idx := 8; head := 1%nat;
                    dep_ := "dobj" |} |} ∧
  tokens first_sentence !! 1%nat =
    Some {| i := 1;
            c := {| orth := "met"; lemma_ := "meet"; tag_ := "VBD";
                    ent_type_ := ""; idx := 4; head := 1%nat;
                    dep_ := "ROOT" |} |} ∧
  dep_parents first_record !! 2%nat = Some 2 ∧
  dep_parents first_record !! 1%nat = Some 0.
Proof.
  assert (parse_sent stable_id_of Spacy first_sentence None 0 =
          Ok first_record) as Hparse by (by vm_compute).
  split; [exact Hparse|]. split; [reflexivity|]. split; [reflexivity|].
  split.
  - eapply (proj2 (dep_parents_root_or_governor stable_id_of Spacy
                     first_sentence None 0 first_record 2 _ Hparse eq_refl)
              1%nat);
      [by vm_compute|reflexivity|reflexivity].
  - by apply (proj1 (dep_parents_root_or_governor stable_id_of Spacy
                       first_sentence None 0 first_record 1 _ Hparse
                       eq_refl)).
Defined.

(** With the hits overlaid, the assertion on the first sentence fails: the
    sentence is skipped, and the second one is yielded at position 0. *)
Example parse_tagged_sample :
  parse stable_id_of SpacyPretagged (Some tagged_document)
        [first_sentence; second_sentence] =
    ([ {| words := ["Hi"; "Bob"];
          lemmas := ["hi"; "bob"];
          pos_tags := ["UH"; "NNP"];
          ner_tags := ["O"; "PERSON"];
          char_offsets := [0; 3];
          abs_char_offsets := [13; 16];
          dep_parents := [0; 1];
          dep_labels := ["ROOT"; "npadvmod"];
          position := 0;
          document := Some tagged_document;
          sent_text := "Hi Bob";
          entity_cids := ["O"; "O"];
          entity_types := ["O"; "O"];
          stable_id := Some "doc1::sentence" |} ],
     [{| warn_position := 0; warn_exn := AssertionError |}]).
Proof. by vm_compute. Qed.


Lemma char_offsets_relative_to_first_token_witness :
  second_record ∈
    (parse stable_id_of Spacy None
           [first_sentence; empty_sentence; second_sentence]).1 ∧
  ∃ first,
    abs_char_offsets second_record !! 0%nat = Some first ∧
    char_offsets second_record !! 0%nat = Some 0 ∧
    ∀ k : nat, char_offsets second_record !! k =
               (λ a, a - first) <$> abs_char_offsets second_record !! k.
Proof.
  assert (second_record ∈
            (parse stable_id_of Spacy None
                   [first_sentence; empty_sentence; second_sentence]).1)
    as Hin.
  { rewrite parse_sample. cbn. apply list_elem_of_further, list_elem_of_here. }
  split; [exact Hin|].
  exact (char_offsets_relative_to_first_token stable_id_of Spacy None _ _ Hin).
Defined.

End sample_document.

(** ** Further properties of the schema factory *)

(** *** Keys derived from role names *)









(** *** The attribute dictionary *)

Section attribute_dictionary.

Variable table_name : string.





End attribute_dictionary.







(** *** Cascading deletes *)




(** *** The table of a variant *)


(** *** Calling the factory again with other roles *)







(** The hypothesis of the theorem on role attributes is needed: with the
    roles "a" and "a_id", the key "a_id" holds the relationship of the
    second role, not the foreign key of the first. *)
Example clashing_roles_lose_a_foreign_key :
  cls_attribs (build_class "Pair" ["a"; "a_id"] "pair") !! "a_id" =
    Some (ARelationship
            (context_relationship "pair" "a_id" (context_id_column "a_id"))).
Proof. by vm_compute. Qed.

(** ** Further properties of the [Candidate] base class *)

Lemma for_each_length {A B} (f : A → result B) (xs : list A) (ys : list B) :
  for_each f xs = Ok ys → length ys = length xs.
Proof.
  revert ys. induction xs as [|x xs IH]; intros ys.
  - by intros [= <-].
  - cbn. destruct (f x) as [y|]; [|done]. rewrite bind_Ok.
    destruct (for_each f xs) as [ys'|]; [|done]. rewrite bind_Ok.
    intros [= <-]. cbn. f_equal. by apply IH.
Qed.

(** The loop stops with the exception of the first element that raises. *)
Lemma for_each_raises {A B} (f : A → result B) (xs : list A) (x : A) (e : exn) :
  x ∈ xs → f x = Raise e →
  (∀ y e', y ∈ xs → f y = Raise e' → e' = e) →
  for_each f xs = Raise e.
Proof.
  induction xs as [|y xs IH]; intros Hin Hx Hsame.
  - by apply elem_of_nil in Hin.
  - cbn. destruct (f y) as [z|e'] eqn:Hy.
    + rewrite bind_Ok. apply elem_of_cons in Hin as [->|Hin]; [congruence|].
      rewrite IH; [done..|]. intros y' e' Hy' He'. eapply Hsame; [|done].
      by right.
    + cbn. f_equal. eapply Hsame; [|done]. by left.
Qed.

Section candidate_accessors.

Context `{ContextLike Ctx}.



(** [len] of a candidate is the length of what [get_contexts] and
    [get_cids] return. *)
Theorem len_is_number_of_contexts (self : CandidateObj Ctx)
    (contexts cids : list (value Ctx)) :
  get_contexts self = Ok contexts →
  get_cids self = Ok cids →
  __len__ self = Z.of_nat (length contexts) ∧
  __len__ self = Z.of_nat (length cids).
Proof.
  unfold get_contexts, get_cids, __len__.
  intros Hcontexts%for_each_length Hcids%for_each_length.
  by rewrite Hcontexts, Hcids.
Qed.

(** A candidate of a variant without roles: [get_contexts] returns the
    empty tuple and the hash is that of the empty tuple, while [get_parent]
    and every index raise [IndexError]. *)
Theorem candidate_without_roles (py_hash : list string → Z)
    (self : CandidateObj Ctx) :
  cls_argnames (obj_class self) = [] →
  get_contexts self = Ok [] ∧
  __len__ self = 0 ∧
  __hash__ py_hash self = Ok (py_hash []) ∧
  get_parent self = Raise (IndexError "index out of range") ∧
  ∀ key, __getitem__ self key = Raise (IndexError "index out of range").
Proof.
  intros Hargs.
  assert (get_contexts self = Ok []) as Hcontexts.
  { unfold get_contexts. by rewrite Hargs. }
  split; [done|]. split; [unfold __len__; by rewrite Hargs|].
  split.
  { unfold __hash__, stable_id_tuple. rewrite Hcontexts, bind_Ok.
    cbn [for_each]. by rewrite bind_Ok. }
  split.
  { unfold get_parent. rewrite Hcontexts, bind_Ok. cbn [for_each].
    by rewrite bind_Ok, getitem_0_nil. }
  intros key. unfold __getitem__. rewrite Hcontexts, bind_Ok.
  unfold getitem. cbn [length]. change (Z.of_nat 0) with 0.
  destruct (Z.ltb_spec key 0).
  - rewrite Z.add_0_r. destruct (Z.ltb_spec key 0); [done|lia].
  - destruct (Z.ltb_spec key 0); [lia|].
    destruct (Z.leb_spec 0 key); [done|lia].
Qed.

(** Indexing a candidate: a position from 0 reads the context at that
    position, the same position less the arity reads it from the end, and
    any other key raises [IndexError]. *)
Theorem getitem_positions (self : CandidateObj Ctx)
    (contexts : list (value Ctx)) :
  get_contexts self = Ok contexts →
  (∀ (k : nat) v, contexts !! k = Some v →
     __getitem__ self (Z.of_nat k) = Ok v ∧
     __getitem__ self (Z.of_nat k - Z.of_nat (length contexts)) = Ok v) ∧
  (∀ key, key < - Z.of_nat (length contexts) ∨
          Z.of_nat (length contexts) ≤ key →
     __getitem__ self key = Raise (IndexError "index out of range")).
Proof.
  intros Hcontexts.
  assert (∀ key, __getitem__ self key = getitem contexts key) as Hitem.
  { intros key. unfold __getitem__. by rewrite Hcontexts. }
  set (n := Z.of_nat (length contexts)). split.
  - intros k v Hk. rewrite !Hitem. unfold getitem. fold n.
    pose proof (lookup_lt_Some _ _ _ Hk) as Hlt. split.
    + destruct (Z.ltb_spec (Z.of_nat k) 0); [lia|].
      destruct (Z.ltb_spec (Z.of_nat k) 0); [lia|].
      destruct (Z.leb_spec n (Z.of_nat k)); [lia|]. cbn.
      by rewrite Nat2Z.id, Hk.
    + destruct (Z.ltb_spec (Z.of_nat k - n) 0); [|lia].
      replace (Z.of_nat k - n + n) with (Z.of_nat k) by lia.
      destruct (Z.ltb_spec (Z.of_nat k) 0); [lia|].
      destruct (Z.leb_spec n (Z.of_nat k)); [lia|]. cbn.
      by rewrite Nat2Z.id, Hk.
  - intros key Hkey. rewrite Hitem. unfold getitem. fold n.
    destruct (Z.ltb_spec key 0).
    + destruct (Z.ltb_spec (key + n) 0); [done|].
      destruct (Z.leb_spec n (key + n)); [done|lia].
    + destruct (Z.ltb_spec key 0); [lia|].
      destruct (Z.leb_spec n key); [done|lia].
Qed.

(** When a role holds something that is not a [Context], [None] for a
    role never set, [get_parent] and [hash] raise [AttributeError]. *)
Theorem unbound_role_raises (py_hash : list string → Z)
    (self : CandidateObj Ctx) (contexts : list (value Ctx)) (v : value Ctx) :
  get_contexts self = Ok contexts →
  v ∈ contexts →
  is_context v = false →
  get_parent self = Raise (AttributeError "get_parent") ∧
  __hash__ py_hash self = Raise (AttributeError "stable_id").
Proof.
  intros Hcontexts Hin Hv. split.
  - unfold get_parent. rewrite Hcontexts, bind_Ok.
    rewrite (for_each_raises call_get_parent contexts v
               (AttributeError "get_parent")); [done..| |].
    + by destruct v.
    + intros [] e' _; cbn; congruence.
  - unfold __hash__, stable_id_tuple. rewrite Hcontexts, bind_Ok.
    rewrite (for_each_raises attr_stable_id contexts v
               (AttributeError "stable_id")); [done..| |].
    + by destruct v.
    + intros [] e' _; cbn; congruence.
Qed.

(** [get_parent] on contexts [c0], ..., as a decision on their parents. *)
Lemma get_parent_of_contexts (self : CandidateObj Ctx) (c0 : Ctx)
    (cs : list Ctx) :
  get_contexts self = Ok (VContext <$> c0 :: cs) →
  get_parent self =
    if bool_decide (Forall (λ c, ctx_get_parent c = ctx_get_parent c0) cs)
    then Ok (ctx_get_parent c0)
    else Raise (Exception "Contexts do not all have same parent").
Proof.
  intros Hcontexts. unfold get_parent.
  rewrite Hcontexts, bind_Ok, parents_of_contexts, bind_Ok.
  cbn [fmap list_fmap]. rewrite getitem_0_cons, bind_Ok.
  assert (count (ctx_get_parent c0)
            (ctx_get_parent c0 :: (ctx_get_parent <$> cs)) =
          length (ctx_get_parent c0 :: (ctx_get_parent <$> cs)) ↔
          Forall (λ c, ctx_get_parent c = ctx_get_parent c0) cs) as Hcount.
  { rewrite count_all, Forall_cons, Forall_fmap.
    split; [intros [_ Hall]; exact Hall|intros Hall; split; [done|exact Hall]]. }
  by rewrite (bool_decide_ext _ _ Hcount).
Qed.

(** [get_parent] does not depend on the order of the roles: two candidates
    over the same contexts in another order get the same parent, or both
    raise. *)
Theorem get_parent_order_irrelevant (self self' : CandidateObj Ctx)
    (cs cs' : list Ctx) :
  get_contexts self = Ok (VContext <$> cs) →
  get_contexts self' = Ok (VContext <$> cs') →
  cs ≡ₚ cs' →
  get_parent self = get_parent self'.
Proof.
  intros Hself Hself' Hperm.
  destruct cs as [|c0 cs].
  { apply Permutation_nil_l in Hperm. subst cs'. unfold get_parent.
    by rewrite Hself, Hself'. }
  destruct cs' as [|c0' cs'].
  { apply Permutation_nil_r in Hperm. done. }
  rewrite (get_parent_of_contexts self c0 cs Hself),
    (get_parent_of_contexts self' c0' cs' Hself').
  assert (∀ d, Forall (λ c, ctx_get_parent c = d) (c0 :: cs) ↔
               Forall (λ c, ctx_get_parent c = d) (c0' :: cs')) as Hall.
  { intros d. by rewrite Hperm. }
  destruct (decide (Forall (λ c, ctx_get_parent c = ctx_get_parent c0) cs))
    as [Hcs|Hcs];
    destruct (decide (Forall (λ c, ctx_get_parent c = ctx_get_parent c0') cs'))
    as [Hcs'|Hcs'].
  - rewrite !bool_decide_eq_true_2 by done. f_equal.
    specialize (Hall (ctx_get_parent c0)).
    rewrite !Forall_cons in Hall. symmetry. by apply Hall.
  - exfalso. apply Hcs'. specialize (Hall (ctx_get_parent c0)).
    rewrite !Forall_cons in Hall.
    destruct (proj1 Hall (conj eq_refl Hcs)) as [Hc0' Hall'].
    eapply Forall_impl; [exact Hall'|]. intros c Hc. cbn in Hc. congruence.
  - exfalso. apply Hcs. specialize (Hall (ctx_get_parent c0')).
    rewrite !Forall_cons in Hall.
    destruct (proj2 Hall (conj eq_refl Hcs')) as [Hc0 Hall'].
    eapply Forall_impl; [exact Hall'|]. intros c Hc. cbn in Hc. congruence.
  - by rewrite !bool_decide_eq_false_2 by done.
Qed.

End candidate_accessors.

(** *** The further properties on the [Spouse] variant *)

Lemma len_is_number_of_contexts_witness :
  get_contexts (spouse ann bob) = Ok [VContext ann; VContext bob] ∧
  get_cids (spouse ann bob) = Ok [VNone; VNone] ∧
  __len__ (spouse ann bob) = 2 ∧
  __len__ (spouse ann bob) = 2.
Proof.
  assert (get_contexts (spouse ann bob) = Ok [VContext ann; VContext bob])
    as Hcontexts by (by vm_compute).
  assert (get_cids (spouse ann bob) = Ok [VNone; VNone])
    as Hcids by (by vm_compute).
  split; [exact Hcontexts|]. split; [exact Hcids|].
  exact (len_is_number_of_contexts (spouse ann bob) _ _ Hcontexts Hcids).
Defined.

Lemma candidate_without_roles_witness :
  cls_argnames (obj_class no_roles) = [] ∧
  get_contexts no_roles = Ok [] ∧
  __len__ no_roles = 0 ∧
  __hash__ sum_hash no_roles = Ok (sum_hash []) ∧
  get_parent no_roles = Raise (IndexError "index out of range") ∧
  ∀ key, __getitem__ no_roles key = Raise (IndexError "index out of range").
Proof.
  split; [reflexivity|].
  apply (candidate_without_roles sum_hash no_roles). reflexivity.
Defined.

Lemma getitem_positions_witness :
  get_contexts (spouse ann bob) = Ok [VContext ann; VContext bob] ∧
  (∀ (k : nat) v, [VContext ann; VContext bob] !! k = Some v →
     __getitem__ (spouse ann bob) (Z.of_nat k) = Ok v ∧
     __getitem__ (spouse ann bob) (Z.of_nat k - Z.of_nat 2) = Ok v) ∧
  (∀ key, key < - Z.of_nat 2 ∨ Z.of_nat 2 ≤ key →
     __getitem__ (spouse ann bob) key =
       Raise (IndexError "index out of range")).
Proof.
  assert (get_contexts (spouse ann bob) = Ok [VContext ann; VContext bob])
    as Hcontexts by (by vm_compute).
  split; [exact Hcontexts|].
  exact (getitem_positions (spouse ann bob) _ Hcontexts).
Defined.

Lemma unbound_role_raises_witness :
  get_contexts half_spouse = Ok [VContext ann; VNone] ∧
  VNone ∈ [VContext ann; VNone] ∧
  is_context (@VNone SpanContext) = false ∧
  get_parent half_spouse = Raise (AttributeError "get_parent") ∧
  __hash__ sum_hash half_spouse = Raise (AttributeError "stable_id").
Proof.
  assert (get_contexts half_spouse = Ok [VContext ann; VNone])
    as Hcontexts by (by vm_compute).
  assert (VNone ∈ [VContext ann; VNone]) as Hin
    by apply list_elem_of_further, list_elem_of_here.
  split; [exact Hcontexts|]. split; [exact Hin|]. split; [reflexivity|].
  exact (unbound_role_raises sum_hash half_spouse _ VNone Hcontexts Hin
           eq_refl).
Defined.

Lemma get_parent_order_irrelevant_witness :
  get_contexts (spouse ann eve) = Ok (VContext <$> [ann; eve]) ∧
  get_contexts (spouse eve ann) = Ok (VContext <$> [eve; ann]) ∧
  [ann; eve] ≡ₚ [eve; ann] ∧
  get_parent (spouse ann eve) = get_parent (spouse eve ann).
Proof.
  assert (get_contexts (spouse ann eve) = Ok (VContext <$> [ann; eve]))
    as Hself by (by vm_compute).
  assert (get_contexts (spouse eve ann) = Ok (VContext <$> [eve; ann]))
    as Hself' by (by vm_compute).
  assert ([ann; eve] ≡ₚ [eve; ann]) as Hperm by apply perm_swap.
  split; [exact Hself|]. split; [exact Hself'|]. split; [exact Hperm|].
  exact (get_parent_order_irrelevant _ _ _ _ Hself Hself' Hperm).
Defined.

(** ** Further properties of the parser adapter *)

Section parser_records.

Import SpacyParser.

Variable construct_stable_id : Document → string → Z → Z → result string.

(** *** The steps of [parse_sent] *)

Lemma for_tokens_appends_tags (sent : Span) (toks : list Token)
    (parts parts' : Parts) :
  for_tokens sent parts toks = Ok parts' →
  lemmas parts' = lemmas parts ++ ((λ t, lemma_ (c t)) <$> toks) ∧
  pos_tags parts' = pos_tags parts ++ ((λ t, tag_ (c t)) <$> toks) ∧
  ner_tags parts' = ner_tags parts ++ (ner_tag <$> toks) ∧
  dep_labels parts' = dep_labels parts ++ ((λ t, dep_ (c t)) <$> toks) ∧
  position parts' = position parts ∧
  document parts' = document parts ∧
  sent_text parts' = sent_text parts ∧
  entity_cids parts' = entity_cids parts ∧
  entity_types parts' = entity_types parts ∧
  stable_id parts' = stable_id parts.
Proof.
  revert parts. induction toks as [|token toks IH]; intros parts.
  - intros [= <-]. by rewrite !app_nil_r.
  - cbn [for_tokens]. unfold append_token.
    destruct (head_idx sent token) as [h|e]; [|done].
    rewrite bind_Ok. cbn [mret result_ret]. rewrite bind_Ok.
    intros Hrest.
    apply IH in Hrest as (Hl & Hp & Hn & Hd & Hpos & Hdoc & Ht & Hc & Hy & Hs).
    cbn in Hl, Hp, Hn, Hd, Hpos, Hdoc, Ht, Hc, Hy, Hs.
    rewrite <- !app_assoc in Hl, Hp, Hn, Hd. done.
Qed.

Lemma for_hits_same_tags (d : Document) (hits : list Z)
    (parts parts' : Parts) :
  for_hits d parts hits = Ok parts' →
  length (entity_cids parts) = length (words parts) →
  length (entity_types parts) = length (words parts) →
  same_tags parts parts'.
Proof.
  revert parts. induction hits as [|hit hits IH]; intros parts.
  - intros [= <-] Hcids Htypes. by repeat split.
  - cbn [for_hits]. unfold overlay_hit.
    destruct (hit_indices _ _) as [|index ?]; [done|].
    case_bool_decide; [|done]. rewrite bind_Ok. intros Hrest Hcids Htypes.
    apply IH in Hrest; [exact Hrest|cbn; by rewrite length_insert..].
Qed.

Lemma update_entity_attributes_same_tags (self : parser_class)
    (parts parts' : Parts) (sent : Span) (document' : option Document) :
  update_entity_attributes self parts sent document' = Ok parts' →
  same_tags parts parts'.
Proof.
  destruct self; cbn.
  - intros [= <-]. repeat split; apply length_fmap.
  - unfold SpacyPretagged_update_entity_attributes.
    destruct document' as [d|]; [|done]. rewrite bind_Ok.
    intros Hhits. apply for_hits_same_tags in Hhits; [exact Hhits|..];
      apply length_fmap.
Qed.

Lemma relative_offsets_returns (offsets : list Z) :
  ∃ relative, relative_offsets offsets = Ok relative ∧
              length relative = length offsets.
Proof.
  destruct offsets as [|first offsets]; [by exists []|].
  eexists. split; [apply relative_offsets_cons|]. by rewrite length_fmap.
Qed.

Lemma getitem_last_Ok {A} (xs : list A) (x : A) :
  getitem xs (-1) = Ok x → last xs = Some x.
Proof.
  unfold getitem. replace (-1 <? 0) with true by done.
  set (n := Z.of_nat (length xs)). intros Hx.
  destruct (Z.ltb_spec (-1 + n) 0); [done|].
  destruct (Z.leb_spec n (-1 + n)); [done|]. cbn [orb] in Hx.
  rewrite last_lookup.
  replace (pred (length xs)) with (Z.to_nat (-1 + n)) by (subst n; lia).
  by destruct (xs !! Z.to_nat (-1 + n)) as [y|]; [injection Hx as ->|].
Qed.

(** The steps that a returned record went through. *)
Lemma parse_sent_steps (self : parser_class) (sent : Span)
    (document' : option Document) (position' : Z) (parts : Parts) :
  parse_sent construct_stable_id self sent document' position' = Ok parts →
  ∃ p1 offsets p2 first last_offset last_word,
    for_tokens sent empty_parts (tokens sent) = Ok p1 ∧
    relative_offsets (char_offsets p1) = Ok offsets ∧
    update_entity_attributes self
      (set_sentence_fields p1 offsets position' document' (text sent))
      sent document' = Ok p2 ∧
    getitem (abs_char_offsets p2) 0 = Ok first ∧
    getitem (char_offsets p2) (-1) = Ok last_offset ∧
    getitem (words p2) (-1) = Ok last_word ∧
    match document' with
    | Some d =>
        ∃ sid,
          construct_stable_id d "sentence" first
            (first + last_offset + Z.of_nat (String.length last_word)) =
            Ok sid ∧
          parts = set_stable_id p2 sid
    | None => parts = p2
    end.
Proof.
  unfold parse_sent. intros Hret.
  destruct (for_tokens _ _ _) as [p1|] eqn:Hloop; [|done].
  rewrite bind_Ok in Hret.
  destruct (relative_offsets _) as [offsets|] eqn:Hrel; [|done].
  rewrite bind_Ok in Hret.
  destruct (update_entity_attributes _ _ _ _) as [p2|] eqn:Hupd; [|done].
  rewrite bind_Ok in Hret.
  destruct (getitem (abs_char_offsets p2) 0) as [first|] eqn:Hfirst; [|done].
  rewrite bind_Ok in Hret.
  destruct (getitem (char_offsets p2) (-1)) as [last_offset|] eqn:Hlast;
    [|done].
  rewrite bind_Ok in Hret.
  destruct (getitem (words p2) (-1)) as [last_word|] eqn:Hword; [|done].
  rewrite bind_Ok in Hret.
  exists p1, offsets, p2, first, last_offset, last_word.
  repeat split; try done.
  destruct document' as [d|].
  - destruct (construct_stable_id _ _ _ _) as [sid|] eqn:Hsid; [|done].
    rewrite bind_Ok in Hret. injection Hret as <-. by exists sid.
  - by injection Hret as <-.
Qed.

(** The per-token lists of a returned record, from the tokens. *)
Lemma parse_sent_lists (self : parser_class) (sent : Span)
    (document' : option Document) (position' : Z) (parts : Parts) :
  parse_sent construct_stable_id self sent document' position' = Ok parts →
  words parts = (λ t, orth (c t)) <$> tokens sent ∧
  lemmas parts = (λ t, lemma_ (c t)) <$> tokens sent ∧
  pos_tags parts = (λ t, tag_ (c t)) <$> tokens sent ∧
  ner_tags parts = ner_tag <$> tokens sent ∧
  abs_char_offsets parts = (λ t, idx (c t)) <$> tokens sent ∧
  dep_labels parts = (λ t, dep_ (c t)) <$> tokens sent ∧
  Forall2 (λ t h, head_idx sent t = Ok h) (tokens sent) (dep_parents parts) ∧
  length (char_offsets parts) = length (tokens sent) ∧
  length (entity_cids parts) = length (tokens sent) ∧
  length (entity_types parts) = length (tokens sent).
Proof.
  intros Hparts.
  apply parse_sent_steps in Hparts
    as (p1 & offsets & p2 & first & last_offset & last_word & Hloop & Hrel &
        Hupd & _ & _ & _ & Hfinal).
  pose proof (for_tokens_appends _ _ _ _ Hloop)
    as (Hw1 & Hc1 & Ha1 & hs & Hhs & Hd1).
  pose proof (for_tokens_appends_tags _ _ _ _ Hloop)
    as (Hl1 & Hp1 & Hn1 & Hdl1 & _).
  pose proof (update_entity_attributes_same_annotations _ _ _ _ _ Hupd)
    as (Hw2 & Hc2 & Ha2 & Hd2 & _).
  pose proof (update_entity_attributes_same_tags _ _ _ _ _ Hupd)
    as (Hl2 & Hp2 & Hn2 & Hdl2 & _ & _ & _ & Hcids & Htypes).
  destruct (relative_offsets_returns (char_offsets p1))
    as (relative & Hrel' & Hlen).
  rewrite Hrel in Hrel'. injection Hrel' as ->.
  cbn in Hw1, Hc1, Ha1, Hd1, Hl1, Hp1, Hn1, Hdl1, Hw2, Hc2, Ha2, Hd2,
         Hl2, Hp2, Hn2, Hdl2.
  assert (words parts = words p2 ∧ lemmas parts = lemmas p2 ∧
          pos_tags parts = pos_tags p2 ∧ ner_tags parts = ner_tags p2 ∧
          abs_char_offsets parts = abs_char_offsets p2 ∧
          dep_labels parts = dep_labels p2 ∧
          dep_parents parts = dep_parents p2 ∧
          char_offsets parts = char_offsets p2 ∧
          entity_cids parts = entity_cids p2 ∧
          entity_types parts = entity_types p2)
    as (-> & -> & -> & -> & -> & -> & -> & -> & -> & ->).
  { destruct document' as [d|]; [destruct Hfinal as (sid & _ & ->)|subst];
      done. }
  rewrite Hw2, Hl2, Hp2, Hn2, Ha2, Hdl2, Hd2, Hc2, Hcids, Htypes, Hw2.
  rewrite Hw1, Hl1, Hp1, Hn1, Ha1, Hdl1, Hd1, Hlen, Hc1.
  by rewrite !length_fmap.
Qed.


(** *** The record of a sentence *)

(** In a returned record, the ten per-token lists all have as many entries
    as the sentence has tokens. *)
Theorem record_lists_have_token_count (self : parser_class) (sent : Span)
    (document' : option Document) (position' : Z) (parts : Parts) :
  parse_sent construct_stable_id self sent document' position' = Ok parts →
  length (words parts) = length (tokens sent) ∧
  length (lemmas parts) = length (tokens sent) ∧
  length (pos_tags parts) = length (tokens sent) ∧
  length (ner_tags parts) = length (tokens sent) ∧
  length (char_offsets parts) = length (tokens sent) ∧
  length (abs_char_offsets parts) = length (tokens sent) ∧
  length (dep_parents parts) = length (tokens sent) ∧
  length (dep_labels parts) = length (tokens sent) ∧
  length (entity_cids parts) = length (tokens sent) ∧
  length (entity_types parts) = length (tokens sent).
Proof.
  intros Hparts. apply parse_sent_lists in Hparts
    as (-> & -> & -> & -> & -> & -> & Hdeps & Hc & Hcids & Htypes).
  apply Forall2_length in Hdeps. rewrite !length_fmap. by repeat split.
Qed.

(** The entries at position [k] of a returned record are those of the
    token at position [k] of the sentence; the named-entity tag is the
    entity type of the token, or "O" when the token has none, and is never
    empty. *)
Theorem record_entries_follow_tokens (self : parser_class) (sent : Span)
    (document' : option Document) (position' : Z) (parts : Parts)
    (k : nat) (token : Token) :
  parse_sent construct_stable_id self sent document' position' = Ok parts →
  tokens sent !! k = Some token →
  words parts !! k = Some (orth (c token)) ∧
  lemmas parts !! k = Some (lemma_ (c token)) ∧
  pos_tags parts !! k = Some (tag_ (c token)) ∧
  dep_labels parts !! k = Some (dep_ (c token)) ∧
  abs_char_offsets parts !! k = Some (idx (c token)) ∧
  ∃ tag, ner_tags parts !! k = Some tag ∧ tag ≠ "" ∧
         (ent_type_ (c token) = "" → tag = "O") ∧
         (ent_type_ (c token) ≠ "" → tag = ent_type_ (c token)).
Proof.
  intros Hparts Htoken. apply parse_sent_lists in Hparts
    as (-> & -> & -> & -> & -> & -> & _).
  rewrite !list_lookup_fmap, Htoken. repeat split.
  exists (ner_tag token). split; [done|]. unfold ner_tag.
  case_bool_decide as Hent; by repeat split.
Qed.

(** No token is recorded as its own parent: the entry of [dep_parents] at
    position [k] is never [k + 1]. *)
Theorem token_is_never_its_own_parent (self : parser_class) (sent : Span)
    (document' : option Document) (position' : Z) (parts : Parts) (k : nat) :
  parse_sent construct_stable_id self sent document' position' = Ok parts →
  dep_parents parts !! k ≠ Some (Z.of_nat k + 1).
Proof.
  intros Hparts Hk. apply parse_sent_lists in Hparts
    as (_ & _ & _ & _ & _ & _ & Hdeps & _).
  destruct (Forall2_lookup_r _ _ _ _ _ Hdeps Hk) as (token & Htoken & Hh).
  unfold head_idx, head_is in Hh. case_bool_decide as Hroot.
  - injection Hh as Hh. lia.
  - destruct (tokens sent) as [|sent0 rest] eqn:Htokens; [done|].
    rewrite getitem_0_cons, bind_Ok in Hh. injection Hh as Hh.
    assert (i sent0 = (start sent + 0)%nat) as Hfirst.
    { apply tokens_lookup. by rewrite Htokens. }
    assert (i token = (start sent + k)%nat) as Hi.
    { apply tokens_lookup. by rewrite Htokens. }
    lia.
Qed.

(** A sentence without tokens is never parsed: [parse_sent] raises,
    whatever the class and the document, and [Spacy.parse_sent] raises the
    [IndexError] of [parts['abs_char_offsets'][0]]. *)
Theorem sentence_without_tokens_is_not_parsed (self : parser_class)
    (sent : Span) (document' : option Document) (position' : Z) :
  tokens sent = [] →
  Py.is_Ok (parse_sent construct_stable_id self sent document' position') =
    false ∧
  parse_sent construct_stable_id Spacy sent document' position' =
    Raise (IndexError "index out of range").
Proof.
  intros Hempty. split.
  - destruct (parse_sent _ _ _ _ _) as [parts|] eqn:Hparts; [|done].
    pose proof (parse_sent_Ok _ _ _ _ _ _ Hparts)
      as (_ & _ & _ & _ & _ & _ & _ & first & Hfirst).
    apply parse_sent_lists in Hparts as (_ & _ & _ & _ & Habs & _).
    by rewrite Habs, Hempty in Hfirst.
  - unfold parse_sent. by rewrite Hempty.
Qed.

Lemma Spacy_parse_sent_is_Ok (sent : Span) (position' : Z) :
  Py.is_Ok (parse_sent construct_stable_id Spacy sent None position') =
    bool_decide (tokens sent ≠ []).
Proof.
  case_bool_decide as Htokens.
  - by apply parse_sent_Spacy_returns.
  - unfold parse_sent. by rewrite Htokens.
Qed.

Lemma length_filter_complement (sents : list Span) :
  (length (filter (λ sent, tokens sent ≠ []) sents) +
   length (filter (λ sent, tokens sent = []) sents) = length sents)%nat.
Proof.
  induction sents as [|sent sents IH]; [done|].
  rewrite !filter_cons.
  destruct (decide (tokens sent ≠ [])) as [Hne|He];
    destruct (decide (tokens sent = [])) as [He'|Hne']; cbn; try lia.
  - done.
  - by destruct (decide (tokens sent = [])).
Qed.

(** Without a document, [Spacy.parse_sent] returns a record exactly for
    the sentences that have a token. *)
Theorem Spacy_parses_sentences_with_tokens (sent : Span) (position' : Z) :
  (∃ parts,
     parse_sent construct_stable_id Spacy sent None position' = Ok parts) ↔
  tokens sent ≠ [].
Proof.
  pose proof (Spacy_parse_sent_is_Ok sent position') as Hok. split.
  - intros [parts Hparts]. rewrite Hparts in Hok. cbn in Hok.
    symmetry in Hok. by apply bool_decide_eq_true in Hok.
  - intros Htokens. rewrite bool_decide_eq_true_2 in Hok by done.
    destruct (parse_sent _ _ _ _ _) as [parts|]; [by exists parts|done].
Qed.

(** The stable identifier of a record is made for a document only, from
    the absolute offset of the first token and the end of the last word:
    the absolute offset of the last token plus the length of its word. *)
Theorem stable_id_spans_sentence (self : parser_class) (sent : Span)
    (document' : option Document) (position' : Z) (parts : Parts) :
  parse_sent construct_stable_id self sent document' position' = Ok parts →
  match document' with
  | None => stable_id parts = None
  | Some d =>
      ∃ first last_abs last_word sid,
        abs_char_offsets parts !! 0%nat = Some first ∧
        last (abs_char_offsets parts) = Some last_abs ∧
        last (words parts) = Some last_word ∧
        construct_stable_id d "sentence" first
          (last_abs + Z.of_nat (String.length last_word)) = Ok sid ∧
        stable_id parts = Some sid
  end.
Proof.
  intros Hparts.
  pose proof (parse_sent_lists _ _ _ _ _ Hparts)
    as (Hwords & _ & _ & _ & Habs & _).
  apply parse_sent_steps in Hparts
    as (p1 & offsets & p2 & first & last_offset & last_word & Hloop & Hrel &
        Hupd & Hfirst & Hlast & Hword & Hfinal).
  pose proof (for_tokens_appends _ _ _ _ Hloop) as (_ & Hc1 & Ha1 & _).
  pose proof (for_tokens_appends_tags _ _ _ _ Hloop)
    as (_ & _ & _ & _ & _ & _ & _ & _ & _ & Hs1).
  pose proof (update_entity_attributes_same_annotations _ _ _ _ _ Hupd)
    as (Hw2 & Hc2 & Ha2 & _).
  pose proof (update_entity_attributes_same_tags _ _ _ _ _ Hupd)
    as (_ & _ & _ & _ & _ & _ & Hs2 & _).
  cbn in Hc1, Ha1, Hs1, Hw2, Hc2, Ha2, Hs2.
  destruct document' as [d|]; [|subst; congruence].
  destruct Hfinal as (sid & Hsid & ->). cbn [set_stable_id abs_char_offsets
    words stable_id] in *.
  apply getitem_0_Ok in Hfirst. apply getitem_last_Ok in Hlast, Hword.
  rewrite Hc2 in Hlast. rewrite Hc1 in Hrel.
  rewrite Ha2, Ha1 in Hfirst. rewrite Habs.
  destruct ((λ t, idx (c t)) <$> tokens sent) as [|first' rest] eqn:Hidx;
    [done|].
  injection Hfirst as ->.
  rewrite relative_offsets_cons in Hrel. injection Hrel as <-.
  change (first - first :: list_fmap Z Z (λ p, p - first) rest)
    with ((λ p, p - first) <$> first :: rest) in Hlast.
  rewrite fmap_last in Hlast.
  destruct (last (first :: rest)) as [last_abs|] eqn:Hlast_abs; [|done].
  injection Hlast as <-.
  exists first, last_abs, last_word, sid. repeat split; [done|].
  rewrite <- Hsid. f_equal. lia.
Qed.


(** *** The two classes *)

(** For [Spacy], the entity fields of a record hold "O" for every
    token. *)
Theorem Spacy_entities_are_all_O (sent : Span) (document' : option Document)
    (position' : Z) (parts : Parts) :
  parse_sent construct_stable_id Spacy sent document' position' = Ok parts →
  entity_cids parts = replicate (length (tokens sent)) "O" ∧
  entity_types parts = replicate (length (tokens sent)) "O".
Proof.
  intros Hparts.
  pose proof (parse_sent_lists _ _ _ _ _ Hparts) as (Hwords & _).
  apply parse_sent_steps in Hparts
    as (p1 & offsets & p2 & first & last_offset & last_word & _ & _ &
        Hupd & _ & _ & _ & Hfinal).
  cbn in Hupd. injection Hupd as <-.
  assert (entity_cids parts = (λ _, "O") <$> words parts ∧
          entity_types parts = (λ _, "O") <$> words parts) as [-> ->].
  { destruct document' as [d|]; [destruct Hfinal as (sid & _ & ->)|subst];
      done. }
  rewrite (const_fmap (λ _, "O") (words parts) "O") by done.
  by rewrite Hwords, length_fmap.
Qed.

Lemma filter_none {A} (P : A → Prop) `{∀ x, Decision (P x)} (xs : list A) :
  (∀ x, x ∈ xs → ¬ P x) → filter P xs = [].
Proof.
  induction xs as [|x xs IH]; intros Hnone; [done|].
  rewrite filter_cons_False by (apply Hnone; by left).
  apply IH. intros y Hy. apply Hnone. by right.
Qed.

(** When no hit of the document lies in the span of the sentence,
    [SpacyPretagged.parse_sent] does what [Spacy.parse_sent] does. *)
Theorem SpacyPretagged_without_hits_is_Spacy (sent : Span) (d : Document)
    (position' : Z) :
  (∀ x, x ∈ hit_starts d → ¬ hit_in sent x) →
  parse_sent construct_stable_id SpacyPretagged sent (Some d) position' =
    parse_sent construct_stable_id Spacy sent (Some d) position'.
Proof.
  intros Hnone. unfold parse_sent.
  destruct (for_tokens _ _ _) as [p1|]; [|done]. rewrite !bind_Ok.
  destruct (relative_offsets _) as [offsets|]; [|done]. rewrite !bind_Ok.
  cbn [update_entity_attributes].
  unfold SpacyPretagged_update_entity_attributes. rewrite bind_Ok.
  by rewrite (filter_none _ _ Hnone).
Qed.

(** [SpacyPretagged] needs a document: without one, [parse_sent] raises
    [AttributeError] on every sentence, and [parse] yields nothing and logs
    one warning per sentence, all at position 0. *)
Theorem SpacyPretagged_needs_a_document (sents : list Span) :
  (∀ sent position',
     parse_sent construct_stable_id SpacyPretagged sent None position' =
       Raise (AttributeError "meta")) ∧
  parse construct_stable_id SpacyPretagged None sents =
    ([], (λ _, {| warn_position := 0;
                  warn_exn := AttributeError "meta" |}) <$> sents).
Proof.
  assert (∀ sent position',
            parse_sent construct_stable_id SpacyPretagged sent None position' =
              Raise (AttributeError "meta")) as Hraise.
  { intros sent position'. unfold parse_sent.
    pose proof (for_tokens_returns sent (tokens sent) empty_parts) as Hloop.
    destruct (for_tokens _ _ _) as [p1|]; cycle 1.
    { discriminate Hloop. intros token [k Hk]%list_elem_of_lookup.
      by exists k. }
    rewrite bind_Ok.
    destruct (relative_offsets_returns (char_offsets p1))
      as (offsets & -> & _).
    by rewrite bind_Ok. }
  split; [exact Hraise|]. unfold parse.
  assert (∀ log,
            parse_from construct_stable_id SpacyPretagged None
              {| st_position := 0; st_yielded := []; st_log := log |} sents =
            {| st_position := 0; st_yielded := [];
               st_log := log ++
                 ((λ _, {| warn_position := 0;
                           warn_exn := AttributeError "meta" |}) <$> sents) |})
    as Hlog.
  { induction sents as [|sent sents IH]; intros log.
    - cbn. by rewrite app_nil_r.
    - cbn [parse_from foldl]. unfold parse_step at 2. cbn [st_position].
      rewrite Hraise. cbn [st_yielded st_log]. unfold parse_from in IH.
      rewrite IH. cbn. by rewrite <- app_assoc. }
  unfold parse_start. by rewrite (Hlog []).
Qed.

(** *** Alignment of the hits *)

Lemma elem_of_hit_indices (hit : Z) (offsets : list Z) (index : nat) :
  index ∈ hit_indices hit offsets ↔
  ∃ x, offsets !! index = Some x ∧ hit ≤ x.
Proof.
  unfold hit_indices. rewrite list_elem_of_omap. split.
  - intros ([k x] & Hin & Hk). apply elem_of_lookup_imap in Hin
      as (k' & x' & [= -> ->] & Hlookup).
    cbn in Hk. case_bool_decide; [|done]. injection Hk as <-. by exists x'.
  - intros (x & Hlookup & Hx). exists (index, x). split.
    + by apply (elem_of_lookup_imap_2 pair).
    + cbn. by rewrite bool_decide_eq_true_2.
Qed.

(** A hit after the last token of its sentence stops [parse_sent] with the
    [IndexError] of the alignment. *)
Theorem hit_after_last_token_raises (sent : Span) (d : Document)
    (position' : Z) (hit : Z) :
  hit ∈ hit_starts d →
  hit_in sent hit →
  (∀ x token, x ∈ hit_starts d → hit_in sent x → token ∈ tokens sent →
              idx (c token) < x) →
  parse_sent construct_stable_id SpacyPretagged sent (Some d) position' =
    Raise (IndexError "SpacyPretagged: hit location does not align in tokens").
Proof.
  intros Hhit Hin Hafter. unfold parse_sent.
  pose proof (for_tokens_returns sent (tokens sent) empty_parts) as Hloop.
  destruct (for_tokens _ _ _) as [p1|] eqn:Hp1; cycle 1.
  { discriminate Hloop. intros token [k Hk]%list_elem_of_lookup. by exists k. }
  apply for_tokens_appends in Hp1 as (_ & _ & Ha1 & _). cbn in Ha1.
  rewrite bind_Ok.
  destruct (relative_offsets_returns (char_offsets p1)) as (offsets & -> & _).
  rewrite bind_Ok. cbn [update_entity_attributes].
  unfold SpacyPretagged_update_entity_attributes. rewrite bind_Ok.
  destruct (filter _ (hit_starts d)) as [|x hits] eqn:Hfilter.
  { exfalso. eapply filter_nil_not_elem_of; [exact Hfilter| |exact Hhit].
    exact Hin. }
  assert (x ∈ filter (λ x, start_char sent ≤ x ∧ x ≤ end_char sent)
                     (hit_starts d)) as Hx by (rewrite Hfilter; by left).
  apply list_elem_of_filter in Hx as [Hx_in Hx].
  cbn [for_hits]. unfold overlay_hit. cbn [abs_char_offsets set_entities
    Spacy_update_entity_attributes set_sentence_fields].
  destruct (hit_indices x (abs_char_offsets p1)) as [|index rest] eqn:Hindices;
    [done|].
  exfalso.
  assert (index ∈ hit_indices x (abs_char_offsets p1)) as Hindex
    by (rewrite Hindices; by left).
  apply elem_of_hit_indices in Hindex as (y & Hy & Hle).
  rewrite Ha1, list_lookup_fmap in Hy.
  destruct (tokens sent !! index) as [token|] eqn:Htoken; [|done].
  injection Hy as <-.
  pose proof (Hafter x token Hx Hx_in) as Hlt.
  assert (token ∈ tokens sent) as Htok by (by eapply list_elem_of_lookup_2).
  specialize (Hlt Htok). lia.
Qed.

(** *** The generator *)

Lemma parse_from_counts (self : parser_class) (document' : option Document)
    (sents : list Span) (st : parse_state) :
  let st' := parse_from construct_stable_id self document' st sents in
  (length (st_yielded st') + length (st_log st') =
   length (st_yielded st) + length (st_log st) + length sents)%nat.
Proof.
  revert st. induction sents as [|sent sents IH]; intros st; cbn zeta.
  - cbn. lia.
  - cbn [parse_from foldl]. specialize (IH (parse_step construct_stable_id
      self document' st sent)). cbn zeta in IH. unfold parse_from in IH.
    rewrite IH. unfold parse_step.
    destruct (parse_sent _ _ _ _ _); cbn; rewrite length_app; cbn; lia.
Qed.

(** Every sentence gives either a record or a warning. *)
Theorem every_sentence_is_yielded_or_logged (self : parser_class)
    (document' : option Document) (sents : list Span) :
  (length (parse construct_stable_id self document' sents).1 +
   length (parse construct_stable_id self document' sents).2 =
   length sents)%nat.
Proof.
  unfold parse. cbn [fst snd].
  pose proof (parse_from_counts self document' sents parse_start) as Hcount.
  cbn zeta in Hcount. rewrite Hcount. done.
Qed.

Lemma parse_from_positions (self : parser_class)
    (document' : option Document) (sents : list Span) (st : parse_state) :
  st_position st = Z.of_nat (length (st_yielded st)) →
  (∀ (k : nat) parts, st_yielded st !! k = Some parts →
                      position parts = Z.of_nat k) →
  ∀ (k : nat) parts,
    st_yielded (parse_from construct_stable_id self document' st sents) !! k =
      Some parts →
    position parts = Z.of_nat k.
Proof.
  revert st. induction sents as [|sent sents IH]; intros st Hpos Hall; [done|].
  cbn [parse_from foldl]. apply IH; unfold parse_step;
    destruct (parse_sent _ _ _ _ _) as [parts'|] eqn:Hsent; cbn; try done.
  - rewrite length_app. cbn. lia.
  - intros k parts Hk. apply lookup_app_Some in Hk as [Hk|[Hlen Hk]].
    + by apply Hall.
    + apply list_lookup_singleton_Some in Hk as [Hk ->].
      apply parse_sent_Ok in Hsent as (_ & _ & _ & _ & _ & _ & -> & _).
      rewrite Hpos. lia.
Qed.

(** The record at place [k] of what [parse] yields carries the position
    [k]: a sentence that was skipped takes no position. *)
Theorem yielded_positions_are_consecutive (self : parser_class)
    (document' : option Document) (sents : list Span) (k : nat)
    (parts : Parts) :
  (parse construct_stable_id self document' sents).1 !! k = Some parts →
  position parts = Z.of_nat k.
Proof.
  unfold parse. cbn [fst]. by apply parse_from_positions.
Qed.


(** *** Where a hit is recorded *)

Lemma hit_indices_shift (hit : Z) (g : nat → nat) (offsets : list Z) :
  omap (λ kx : nat * Z, if bool_decide (hit ≤ kx.2) then Some kx.1 else None)
       (imap (λ k x, (g k, x)) offsets) =
    g <$> hit_indices hit offsets.
Proof.
  unfold hit_indices. revert g.
  induction offsets as [|x offsets IH]; intros g; [done|].
  rewrite !imap_cons. cbn [omap list_omap].
  change (imap ((λ k x, (g k, x)) ∘ S) offsets)
    with (imap (λ k x, ((g ∘ S) k, x)) offsets).
  change (imap (pair ∘ S) offsets) with (imap (λ k x, (S k, x)) offsets).
  rewrite (IH (g ∘ S)), (IH S). cbn.
  case_bool_decide; cbn; by rewrite <- list_fmap_compose.
Qed.

Lemma hit_indices_cons (hit x : Z) (offsets : list Z) :
  hit_indices hit (x :: offsets) =
    (if bool_decide (hit ≤ x) then [0%nat] else []) ++
    (S <$> hit_indices hit offsets).
Proof.
  unfold hit_indices at 1. rewrite imap_cons. cbn [omap list_omap].
  change (imap (pair ∘ S) offsets) with (imap (λ k x, (S k, x)) offsets).
  rewrite (hit_indices_shift hit S). cbn. by case_bool_decide.
Qed.

(** The first index that the comprehension of the overlay gives. *)
Lemma hit_indices_head (hit : Z) (offsets : list Z) (index : nat)
    (rest : list nat) :
  hit_indices hit offsets = index :: rest →
  first_at_or_after hit offsets index.
Proof.
  revert index rest. induction offsets as [|x offsets IH]; intros index rest;
    [done|].
  rewrite hit_indices_cons. case_bool_decide as Hx.
  - intros [= <- _]. split; [by exists x|]. intros j y Hj. lia.
  - cbn [app].
    destruct (hit_indices hit offsets) as [|index' rest'] eqn:Hindices;
      [done|].
    intros [= <- _]. destruct (IH index' rest' eq_refl) as [Hat Hbefore].
    split; [exact Hat|]. intros [|j] y Hj Hy.
    + injection Hy as <-. lia.
    + apply (Hbefore j); [lia|exact Hy].
Qed.

Lemma first_at_or_after_unique (hit : Z) (offsets : list Z) (j k : nat) :
  first_at_or_after hit offsets j → first_at_or_after hit offsets k → j = k.
Proof.
  intros [(x & Hx & Hle) Hj] [(y & Hy & Hle') Hk].
  destruct (Nat.lt_trichotomy j k) as [Hlt|[->|Hlt]]; [|done|].
  - specialize (Hk j x Hlt Hx). lia.
  - specialize (Hj k y Hlt Hy). lia.
Qed.

Lemma overlay_hit_marks (d : Document) (parts parts' : Parts) (hit : Z)
    (hits : list Z) :
  overlay_hit d parts hit = Ok parts' →
  hits_marked (bmb_id d) (abs_char_offsets parts) (words parts)
              (entity_types parts) (entity_cids parts) hits →
  hits_marked (bmb_id d) (abs_char_offsets parts) (words parts)
              (entity_types parts') (entity_cids parts') (hits ++ [hit]).
Proof.
  unfold overlay_hit.
  destruct (hit_indices _ _) as [|index rest] eqn:Hindices; [done|].
  apply hit_indices_head in Hindices as Hfirst.
  case_bool_decide as Hword; [|done]. intros [= <-]. cbn in Hword.
  intros (Htypes & Hcids & Hmarked & Hother).
  cbn [entity_types entity_cids set_entities].
  assert (index < length (abs_char_offsets parts))%nat as Hindex.
  { destruct Hfirst as [(x & Hx & _) _]. by eapply lookup_lt_Some. }
  split; [by rewrite length_insert|]. split; [by rewrite length_insert|].
  split.
  - intros hit' [Hin|Hin%list_elem_of_singleton]%elem_of_app.
    + destruct (Hmarked hit' Hin) as (index' & Hfirst' & Hw & Ht & Hc).
      exists index'. split; [done|]. split; [done|].
      destruct (decide (index = index')) as [->|Hne].
      * rewrite !list_lookup_insert_eq by lia. done.
      * rewrite !list_lookup_insert_ne by done. done.
    + subst hit'. exists index. split; [done|]. split; [done|].
      rewrite !list_lookup_insert_eq by lia. done.
  - intros k Hk Hnone.
    assert (index ≠ k) as Hne.
    { intros ->. apply Hnone. exists hit. split; [|done].
      apply elem_of_app. right. by left. }
    rewrite !list_lookup_insert_ne by done. apply Hother; [done|].
    intros (hit' & Hin & Hfirst'). apply Hnone. exists hit'.
    split; [|done]. apply elem_of_app. by left.
Qed.

Lemma for_hits_marks (d : Document) (hits : list Z) (parts parts' : Parts)
    (seen : list Z) :
  for_hits d parts hits = Ok parts' →
  hits_marked (bmb_id d) (abs_char_offsets parts) (words parts)
              (entity_types parts) (entity_cids parts) seen →
  hits_marked (bmb_id d) (abs_char_offsets parts) (words parts)
              (entity_types parts') (entity_cids parts') (seen ++ hits).
Proof.
  revert parts seen. induction hits as [|hit hits IH]; intros parts seen.
  - intros [= <-]. by rewrite app_nil_r.
  - cbn [for_hits].
    destruct (overlay_hit d parts hit) as [parts1|] eqn:Hhit; [|done].
    rewrite bind_Ok. intros Hrest Hseen.
    pose proof (overlay_hit_marks _ _ _ _ _ Hhit Hseen) as Hseen1.
    assert (abs_char_offsets parts1 = abs_char_offsets parts ∧
            words parts1 = words parts) as [Habs Hwords].
    { unfold overlay_hit in Hhit.
      destruct (hit_indices _ _); [done|]. case_bool_decide; [|done].
      by injection Hhit as <-. }
    rewrite <- Habs, <- Hwords in Hseen1 |- *.
    apply (IH parts1 (seen ++ [hit])) in Hrest; [|exact Hseen1].
    by rewrite <- app_assoc in Hrest.
Qed.

(** In a record of [SpacyPretagged], every hit of the document that lies
    in the span of the sentence is recorded on the first token whose
    offset is at or after the hit: that token is the placeholder, its
    entity type is "hit" and its entity id the identifier of the document;
    the tokens that no hit leads to hold "O". *)
Theorem hits_mark_first_token_at_or_after (sent : Span) (d : Document)
    (position' : Z) (parts : Parts) :
  parse_sent construct_stable_id SpacyPretagged sent (Some d) position' =
    Ok parts →
  (∀ hit, hit ∈ hit_starts d → hit_in sent hit →
     ∃ index, first_at_or_after hit (abs_char_offsets parts) index ∧
              words parts !! index = Some "BmBTarget" ∧
              entity_types parts !! index = Some "hit" ∧
              entity_cids parts !! index = Some (bmb_id d)) ∧
  (∀ k : nat, (k < length (tokens sent))%nat →
     (¬ ∃ hit, hit ∈ hit_starts d ∧ hit_in sent hit ∧
               first_at_or_after hit (abs_char_offsets parts) k) →
     entity_types parts !! k = Some "O" ∧
     entity_cids parts !! k = Some "O").
Proof.
  intros Hparts.
  pose proof (parse_sent_lists _ _ _ _ _ Hparts)
    as (Hwords & _ & _ & _ & Habs & _).
  apply parse_sent_steps in Hparts
    as (p1 & offsets & p2 & first & last_offset & last_word & Hloop & _ &
        Hupd & _ & _ & _ & sid & _ & ->).
  cbn [set_stable_id abs_char_offsets words entity_types entity_cids] in *.
  apply for_tokens_appends in Hloop as (Hw1 & _ & Ha1 & _).
  cbn in Hw1, Ha1. cbn [update_entity_attributes] in Hupd.
  unfold SpacyPretagged_update_entity_attributes in Hupd.
  rewrite bind_Ok in Hupd.
  apply (for_hits_marks _ _ _ _ []) in Hupd; cycle 1.
  { cbn [abs_char_offsets words entity_types entity_cids set_entities
         Spacy_update_entity_attributes set_sentence_fields].
    unfold hits_marked. rewrite Hw1, Ha1, !length_fmap.
    split; [done|]. split; [done|]. split.
    - intros hit Hin. by apply elem_of_nil in Hin.
    - intros k Hk _. rewrite !list_lookup_fmap.
      destruct (lookup_lt_is_Some_2 (tokens sent) k) as [token ->]; [done|].
      done. }
  cbn [abs_char_offsets words set_entities Spacy_update_entity_attributes
       set_sentence_fields app] in Hupd.
  rewrite Ha1, Hw1 in Hupd. rewrite Habs, Hwords.
  destruct Hupd as (_ & _ & Hmarked & Hother). split.
  - intros hit Hin Hrange. apply Hmarked, list_elem_of_filter. by split.
  - intros k Hk Hnone. apply Hother; [by rewrite length_fmap|].
    intros (hit & [Hrange Hin]%list_elem_of_filter & Hfirst). apply Hnone.
    by exists hit.
Qed.

(** *** More on the record and on the generator *)

(** A returned record carries the position, the document and the text of
    the sentence that [parse_sent] was called with. *)
Theorem record_sentence_fields (self : parser_class) (sent : Span)
    (document' : option Document) (position' : Z) (parts : Parts) :
  parse_sent construct_stable_id self sent document' position' = Ok parts →
  position parts = position' ∧
  document parts = document' ∧
  sent_text parts = text sent.
Proof.
  intros Hparts.
  apply parse_sent_steps in Hparts
    as (p1 & offsets & p2 & first & last_offset & last_word & _ & _ &
        Hupd & _ & _ & _ & Hfinal).
  pose proof (update_entity_attributes_same_annotations _ _ _ _ _ Hupd)
    as (_ & _ & _ & _ & Hpos).
  pose proof (update_entity_attributes_same_tags _ _ _ _ _ Hupd)
    as (_ & _ & _ & _ & Hdoc & Htext & _).
  cbn in Hpos, Hdoc, Htext.
  destruct document' as [d|]; [destruct Hfinal as (sid & _ & ->)|subst];
    done.
Qed.

(** When the head of a token lies in the sentence, its entry in
    [dep_parents] is between 0 and the number of tokens, and it is 0
    exactly when the token is its own head. *)
Theorem dep_parents_in_range (self : parser_class) (sent : Span)
    (document' : option Document) (position' : Z) (parts : Parts)
    (k : nat) (token : Token) :
  parse_sent construct_stable_id self sent document' position' = Ok parts →
  tokens sent !! k = Some token →
  (start sent ≤ head (c token) < start sent + length (tokens sent))%nat →
  ∃ h, dep_parents parts !! k = Some h ∧
       0 ≤ h ≤ Z.of_nat (length (tokens sent)) ∧
       (h = 0 ↔ head (c token) = i token).
Proof.
  intros Hparts Htoken Hhead. apply parse_sent_lists in Hparts
    as (_ & _ & _ & _ & _ & _ & Hdeps & _).
  destruct (Forall2_lookup_l _ _ _ _ _ Hdeps Htoken) as (h & Hk & Hh).
  exists h. split; [done|].
  unfold head_idx, head_is in Hh. case_bool_decide as Hroot.
  - injection Hh as <-. split; [lia|done].
  - destruct (tokens sent) as [|sent0 rest] eqn:Htokens; [done|].
    rewrite getitem_0_cons, bind_Ok in Hh. injection Hh as <-.
    assert (i sent0 = (start sent + 0)%nat) as Hfirst.
    { apply tokens_lookup. by rewrite Htokens. }
    split; [lia|]. split; [lia|done].
Qed.

Lemma parse_from_Spacy_counts (sents : list Span) (st : parse_state) :
  length (st_yielded (parse_from construct_stable_id Spacy None st sents)) =
    (length (st_yielded st) +
     length (filter (λ sent, tokens sent ≠ []) sents))%nat.
Proof.
  revert st. induction sents as [|sent sents IH]; intros st.
  - cbn. lia.
  - cbn [parse_from foldl]. unfold parse_from in IH. rewrite IH.
    unfold parse_step.
    pose proof (Spacy_parse_sent_is_Ok sent (st_position st)) as Hok.
    rewrite filter_cons.
    destruct (parse_sent _ _ _ _ _); destruct (decide (tokens sent ≠ []));
      cbn in Hok |- *; rewrite ?length_app; cbn;
      try lia; by case_bool_decide.
Qed.

(** Without a document, [Spacy.parse] yields one record per sentence that
    has a token, and logs one warning per sentence that has none. *)
Theorem Spacy_yields_sentences_with_tokens (sents : list Span) :
  length (parse construct_stable_id Spacy None sents).1 =
    length (filter (λ sent, tokens sent ≠ []) sents) ∧
  length (parse construct_stable_id Spacy None sents).2 =
    length (filter (λ sent, tokens sent = []) sents).
Proof.
  assert (length (parse construct_stable_id Spacy None sents).1 =
          length (filter (λ sent, tokens sent ≠ []) sents)) as Hyielded.
  { unfold parse. cbn [fst]. by rewrite parse_from_Spacy_counts. }
  split; [exact Hyielded|].
  pose proof (parse_from_counts Spacy None sents parse_start) as Hcount.
  cbn zeta in Hcount. unfold parse in Hyielded |- *. cbn [fst snd] in *.
  rewrite Hyielded in Hcount. cbn in Hcount.
  pose proof (length_filter_complement sents) as Hsplit. lia.
Qed.

End parser_records.

(** *** The further properties on the sample documents *)

Section further_samples.

Import SpacyParser Sample.

Lemma first_sentence_parsed :
  parse_sent stable_id_of Spacy first_sentence None 0 = Ok first_record.
Proof. by vm_compute. Defined.

Lemma tagged_sentence_parsed :
  parse_sent stable_id_of SpacyPretagged Pretagged.sentence
             (Some Pretagged.aligned_document) 0 =
    Ok Pretagged.tagged_record.
Proof. by vm_compute. Defined.

Lemma record_lists_have_token_count_witness :
  parse_sent stable_id_of Spacy first_sentence None 0 = Ok first_record ∧
  length (words first_record) = length (tokens first_sentence) ∧
  length (lemmas first_record) = length (tokens first_sentence) ∧
  length (pos_tags first_record) = length (tokens first_sentence) ∧
  length (ner_tags first_record) = length (tokens first_sentence) ∧
  length (char_offsets first_record) = length (tokens first_sentence) ∧
  length (abs_char_offsets first_record) = length (tokens first_sentence) ∧
  length (dep_parents first_record) = length (tokens first_sentence) ∧
  length (dep_labels first_record) = length (tokens first_sentence) ∧
  length (entity_cids first_record) = length (tokens first_sentence) ∧
  length (entity_types first_record) = length (tokens first_sentence).
Proof.
  split; [exact first_sentence_parsed|].
  exact (record_lists_have_token_count stable_id_of Spacy first_sentence None
           0 first_record first_sentence_parsed).
Defined.

Lemma record_entries_follow_tokens_witness :
  parse_sent stable_id_of Spacy first_sentence None 0 = Ok first_record ∧
  tokens first_sentence !! 0%nat =
    Some {| i := 0;
            c := {| orth := "Ann"; lemma_ := "ann"; tag_ := "NNP";
                    ent_type_ := "PERSON"; idx := 0; head := 1%nat;
                    dep_ := "nsubj" |} |} ∧
  words first_record !! 0%nat = Some "Ann" ∧
  lemmas first_record !! 0%nat = Some "ann" ∧
  pos_tags first_record !! 0%nat = Some "NNP" ∧
  dep_labels first_record !! 0%nat = Some "nsubj" ∧
  abs_char_offsets first_record !! 0%nat = Some 0 ∧
  ∃ tag, ner_tags first_record !! 0%nat = Some tag ∧ tag ≠ "" ∧
         ("PERSON" = "" → tag = "O") ∧ ("PERSON" ≠ "" → tag = "PERSON").
Proof.
  split; [exact first_sentence_parsed|]. split; [reflexivity|].
  exact (record_entries_follow_tokens stable_id_of Spacy first_sentence None
           0 first_record 0 _ first_sentence_parsed eq_refl).
Defined.

Lemma token_is_never_its_own_parent_witness :
  parse_sent stable_id_of Spacy first_sentence None 0 = Ok first_record ∧
  dep_parents first_record !! 1%nat ≠ Some (Z.of_nat 1 + 1).
Proof.
  split; [exact first_sentence_parsed|].
  exact (token_is_never_its_own_parent stable_id_of Spacy first_sentence None
           0 first_record 1 first_sentence_parsed).
Defined.

Lemma sentence_without_tokens_is_not_parsed_witness :
  tokens empty_sentence = [] ∧
  Py.is_Ok (parse_sent stable_id_of SpacyPretagged empty_sentence
                       (Some tagged_document) 3) = false ∧
  parse_sent stable_id_of Spacy empty_sentence (Some tagged_document) 3 =
    Raise (IndexError "index out of range").
Proof.
  split; [reflexivity|].
  exact (sentence_without_tokens_is_not_parsed stable_id_of SpacyPretagged
           empty_sentence (Some tagged_document) 3 eq_refl).
Defined.

Lemma stable_id_spans_sentence_witness :
  parse_sent stable_id_of SpacyPretagged Pretagged.sentence
             (Some Pretagged.aligned_document) 0 =
    Ok Pretagged.tagged_record ∧
  ∃ first last_abs last_word sid,
    abs_char_offsets Pretagged.tagged_record !! 0%nat = Some first ∧
    last (abs_char_offsets Pretagged.tagged_record) = Some last_abs ∧
    last (words Pretagged.tagged_record) = Some last_word ∧
    stable_id_of Pretagged.aligned_document "sentence" first
      (last_abs + Z.of_nat (String.length last_word)) = Ok sid ∧
    stable_id Pretagged.tagged_record = Some sid.
Proof.
  split; [exact tagged_sentence_parsed|].
  exact (stable_id_spans_sentence stable_id_of SpacyPretagged
           Pretagged.sentence (Some Pretagged.aligned_document) 0
           Pretagged.tagged_record tagged_sentence_parsed).
Defined.

Lemma Spacy_entities_are_all_O_witness :
  parse_sent stable_id_of Spacy first_sentence None 0 = Ok first_record ∧
  entity_cids first_record = replicate (length (tokens first_sentence)) "O" ∧
  entity_types first_record = replicate (length (tokens first_sentence)) "O".
Proof.
  split; [exact first_sentence_parsed|].
  exact (Spacy_entities_are_all_O stable_id_of first_sentence None 0
           first_record first_sentence_parsed).
Defined.

Lemma far_hit_outside_sentence :
  ∀ x, x ∈ hit_starts Pretagged.far_document →
       ¬ hit_in Pretagged.sentence x.
Proof.
  intros x Hx [_ Hend]. apply list_elem_of_singleton in Hx. subst x.
  cbn in Hend. lia.
Defined.

Lemma SpacyPretagged_without_hits_is_Spacy_witness :
  (∀ x, x ∈ hit_starts Pretagged.far_document →
        ¬ hit_in Pretagged.sentence x) ∧
  parse_sent stable_id_of SpacyPretagged Pretagged.sentence
             (Some Pretagged.far_document) 0 =
    parse_sent stable_id_of Spacy Pretagged.sentence
               (Some Pretagged.far_document) 0.
Proof.
  split; [exact far_hit_outside_sentence|].
  exact (SpacyPretagged_without_hits_is_Spacy stable_id_of Pretagged.sentence
           Pretagged.far_document 0 far_hit_outside_sentence).
Defined.

Lemma misaligned_hit_after_tokens :
  ∀ x token, x ∈ hit_starts Pretagged.misaligned_document →
             hit_in Pretagged.sentence x →
             token ∈ tokens Pretagged.sentence →
             idx (c token) < x.
Proof.
  intros x token Hx _ Htoken. apply list_elem_of_singleton in Hx. subst x.
  change (tokens Pretagged.sentence)
    with (imap (λ k t, {| i := (0 + k)%nat; c := t |}) Pretagged.entries)
    in Htoken.
  apply elem_of_lookup_imap in Htoken as (k & t & -> & Ht). cbn [c].
  destruct k as [|[|[|k]]]; cbn in Ht; [injection Ht as <-; cbn; lia..|done].
Defined.

Lemma hit_after_last_token_raises_witness :
  15 ∈ hit_starts Pretagged.misaligned_document ∧
  hit_in Pretagged.sentence 15 ∧
  (∀ x token, x ∈ hit_starts Pretagged.misaligned_document →
              hit_in Pretagged.sentence x →
              token ∈ tokens Pretagged.sentence →
              idx (c token) < x) ∧
  parse_sent stable_id_of SpacyPretagged Pretagged.sentence
             (Some Pretagged.misaligned_document) 0 =
    Raise (IndexError "SpacyPretagged: hit location does not align in tokens").
Proof.
  assert (15 ∈ hit_starts Pretagged.misaligned_document) as Hhit
    by apply list_elem_of_here.
  assert (hit_in Pretagged.sentence 15) as Hin by (split; cbn; lia).
  split; [exact Hhit|]. split; [exact Hin|].
  split; [exact misaligned_hit_after_tokens|].
  exact (hit_after_last_token_raises stable_id_of Pretagged.sentence
           Pretagged.misaligned_document 0 15 Hhit Hin
           misaligned_hit_after_tokens).
Defined.

Lemma yielded_positions_are_consecutive_witness :
  (parse stable_id_of Spacy None
         [first_sentence; empty_sentence; second_sentence]).1 !! 1%nat =
    Some second_record ∧
  position second_record = Z.of_nat 1.
Proof.
  assert ((parse stable_id_of Spacy None
             [first_sentence; empty_sentence; second_sentence]).1 !! 1%nat =
          Some second_record) as Hyielded by (by vm_compute).
  split; [exact Hyielded|].
  exact (yielded_positions_are_consecutive stable_id_of Spacy None _ 1
           second_record Hyielded).
Defined.

Lemma hits_mark_first_token_at_or_after_witness :
  parse_sent stable_id_of SpacyPretagged Pretagged.sentence
             (Some Pretagged.aligned_document) 0 =
    Ok Pretagged.tagged_record ∧
  (∀ hit, hit ∈ hit_starts Pretagged.aligned_document →
     hit_in Pretagged.sentence hit →
     ∃ index,
       first_at_or_after hit (abs_char_offsets Pretagged.tagged_record) index ∧
       words Pretagged.tagged_record !! index = Some "BmBTarget" ∧
       entity_types Pretagged.tagged_record !! index = Some "hit" ∧
       entity_cids Pretagged.tagged_record !! index =
         Some (bmb_id Pretagged.aligned_document)) ∧
  (∀ k : nat, (k < length (tokens Pretagged.sentence))%nat →
     (¬ ∃ hit, hit ∈ hit_starts Pretagged.aligned_document ∧
               hit_in Pretagged.sentence hit ∧
               first_at_or_after hit
                 (abs_char_offsets Pretagged.tagged_record) k) →
     entity_types Pretagged.tagged_record !! k = Some "O" ∧
     entity_cids Pretagged.tagged_record !! k = Some "O").
Proof.
  split; [exact tagged_sentence_parsed|].
  exact (hits_mark_first_token_at_or_after stable_id_of Pretagged.sentence
           Pretagged.aligned_document 0 Pretagged.tagged_record
           tagged_sentence_parsed).
Defined.

End further_samples.

Section more_samples.

Import SpacyParser Sample.

Lemma record_sentence_fields_witness :
  parse_sent stable_id_of SpacyPretagged Pretagged.sentence
             (Some Pretagged.aligned_document) 0 =
    Ok Pretagged.tagged_record ∧
  position Pretagged.tagged_record = 0 ∧
  document Pretagged.tagged_record = Some Pretagged.aligned_document ∧
  sent_text Pretagged.tagged_record = text Pretagged.sentence.
Proof.
  split; [exact tagged_sentence_parsed|].
  exact (record_sentence_fields stable_id_of SpacyPretagged
           Pretagged.sentence (Some Pretagged.aligned_document) 0
           Pretagged.tagged_record tagged_sentence_parsed).
Defined.

Lemma dep_parents_in_range_witness :
  parse_sent stable_id_of Spacy first_sentence None 0 = Ok first_record ∧
  tokens first_sentence !! 3%nat =
    Some {| i := 3;
            c := {| orth := "."; lemma_ := "."; tag_ := ".";
                    ent_type_ := ""; idx := 11; head := 1%nat;
                    dep_ := "punct" |} |} ∧
  (start first_sentence ≤ 1 <
   start first_sentence + length (tokens first_sentence))%nat ∧
  ∃ h, dep_parents first_record !! 3%nat = Some h ∧
       0 ≤ h ≤ Z.of_nat (length (tokens first_sentence)) ∧
       (h = 0 ↔ 1%nat = 3%nat).
Proof.
  assert (start first_sentence ≤ 1 <
          start first_sentence + length (tokens first_sentence))%nat
    as Hhead by (cbn; lia).
  split; [exact first_sentence_parsed|]. split; [reflexivity|].
  split; [exact Hhead|].
  exact (dep_parents_in_range stable_id_of Spacy first_sentence None 0
           first_record 3 _ first_sentence_parsed eq_refl Hhead).
Defined.

End more_samples.
